(** * A shallow embedding of the ECS core of [src/include/ECS.h]

    The header defines three managers (entity ids, component pools, system
    membership) and the [ECS] facade that drives them.  Every class of the
    header is a module here, its fields are the fields of the record [t] of
    that module, and its member functions are definitions of the same name
    (constructors are [new]; the overload [getComponentTypeId()] without
    template argument is [nextComponentTypeId]; the bodies of the two loops
    of [SystemManager] and of the [try] block of [ComponentPool::get] have
    definitions of their own).

    Conventions of the embedding:
    - [int] values ([Entity], positions, type ids) are integers in [Z].  No
      arithmetic of the header can overflow as long as containers hold fewer
      than [2^31] elements; the one place where the header leaves the
      non-negative range, [components.size() - 1] on an empty vector stored
      into an [int], yields [-1] in C++ and [-1] in [Z].
    - [std::vector] is a [list], [std::queue] a [list] whose head is the
      front, [std::array] a [list] of fixed length, [std::unordered_map] a
      [gmap], [std::bitset] the integer whose binary digits are the bits.
    - A call either returns, throws, or has undefined behaviour (an
      out-of-range [operator[]] on an array or vector, a null dereference);
      the three cases are the constructors of [outcome]. *)

From stdpp Require Import base numbers list gmap strings pretty.

Local Open Scope Z_scope.

Abbreviation Entity := Z (only parsing).
Abbreviation Signature := Z (only parsing).

Definition MAX_ENTITIES : Z := 512.
Definition MAX_COMPONENTS : Z := 2.

(** ** Exceptions and outcomes *)

(** The header throws [ECSException(message)]; the standard library can throw
    [std::out_of_range] (from [std::bitset::set] and [reset]). *)
Inductive exn : Type :=
  | ECSException (message : string)
  | std_out_of_range.

Inductive outcome (A : Type) : Type :=
  | Ok (a : A)
  | Throw (e : exn)
  | Undefined.

Arguments Ok {A} a.
Arguments Throw {A} e.
Arguments Undefined {A}.

#[global] Instance outcome_ret : MRet outcome := λ A a, Ok a.

#[global] Instance outcome_bind : MBind outcome := λ A B f m,
  match m with
  | Ok a => f a
  | Throw e => Throw e
  | Undefined => Undefined
  end.

(** [try { body } catch (std::out_of_range) { handler }]. *)
Definition try_catch_out_of_range {A} (body handler : outcome A) : outcome A :=
  match body with
  | Throw std_out_of_range => handler
  | r => r
  end.

(** [a[i]] on a [std::array] or [std::vector]: no bounds check, so an index
    outside the container is undefined behaviour. *)
Definition at_index {A} (a : list A) (i : Z) : outcome A :=
  if decide (0 ≤ i) then
    match a !! Z.to_nat i with
    | Some x => Ok x
    | None => Undefined
    end
  else Undefined.

(** [for (int i = 0; i < n; i++) body(i)] over a state [S].  The bound of
    the two loops of the header, [systems.size()], is not changed by their
    bodies. *)
Definition for_loop {S} (n : nat) (body : nat → S → outcome S) (s : S) : outcome S :=
  foldl (λ acc i, s' ← acc; body i s') (Ok s) (seq 0 n).

(** ** std::bitset<MAX_COMPONENTS> *)

Module bitset.
(** [set(pos)] and [reset(pos)] check the position and throw. *)
Definition set (s : Signature) (pos : Z) : outcome Signature :=
  if decide (0 ≤ pos < MAX_COMPONENTS) then Ok (Z.setbit s pos)
  else Throw std_out_of_range.

Definition reset (s : Signature) (pos : Z) : outcome Signature :=
  if decide (0 ≤ pos < MAX_COMPONENTS) then Ok (Z.clearbit s pos)
  else Throw std_out_of_range.

(** [reset()] without argument clears every bit. *)
Definition reset_all (s : Signature) : Signature := 0.
End bitset.

(** ** std::unordered_map<int, int> *)

Module unordered_map.
(** [m[k]] used as an rvalue: a missing key is inserted with the
    value-initialised mapped value [0], and nothing is thrown. *)
Definition subscript (m : gmap Z Z) (k : Z) : Z * gmap Z Z :=
  match m !! k with
  | Some v => (v, m)
  | None => (0, <[k:=0]> m)
  end.
End unordered_map.

(** ** ECSUtils *)

Module ECSUtils.
(** [std::iter_swap(vec.begin() + i, vec.begin() + j)]. *)
Definition iter_swap {T} (vec : list T) (i j : nat) : list T :=
  match vec !! i, vec !! j with
  | Some x, Some y => <[i:=y]> (<[j:=x]> vec)
  | _, _ => vec
  end.

Definition pop_back {T} (vec : list T) : list T :=
  take (length vec - 1)%nat vec.

(** In [index > vec.size() - 1] the left operand is converted to
    [size_t]; it is non-negative there (the test [index < 0] came first)
    and the vector is not empty, so the comparison is the one of [Z]. *)
Definition swapRemove {T} (vec : list T) (index : Z) : list T :=
  if decide (length vec = 0%nat) then vec
  else if decide (index < 0 ∨ index > Z.of_nat (length vec) - 1) then vec
  else
    let vec' :=
      if decide (1 < length vec)%nat
      then iter_swap vec (Z.to_nat index) (length vec - 1)%nat
      else vec in
    pop_back vec'.
End ECSUtils.

(** ** EntityManager *)

Module EntityManager.
Record t : Type := {
  availableEntities : list Entity;
  signatures : list Signature
}.

(** The constructor queues [0 .. MAX_ENTITIES - 1]; the signatures are
    value-initialised bitsets. *)
Definition new : t :=
  {| availableEntities := seqZ 0 MAX_ENTITIES;
     signatures := replicate (Z.to_nat MAX_ENTITIES) 0 |}.

Definition createNew (em : t) : outcome (Entity * t) :=
  match availableEntities em with
  | [] => Throw (ECSException "Out of available entities")
  | entity :: rest =>
      Ok (entity, {| availableEntities := rest; signatures := signatures em |})
  end.

Definition destroy (entity : Entity) (em : t) : outcome t :=
  let queue := availableEntities em ++ [entity] in
  s ← at_index (signatures em) entity;
  Ok {| availableEntities := queue;
        signatures := <[Z.to_nat entity := bitset.reset_all s]> (signatures em) |}.

Definition getSignature (entity : Entity) (em : t) : outcome Signature :=
  at_index (signatures em) entity.

Definition setSignature (entity : Entity) (signature : Signature) (em : t) : outcome t :=
  _ ← at_index (signatures em) entity;
  Ok {| availableEntities := availableEntities em;
        signatures := <[Z.to_nat entity := signature]> (signatures em) |}.
End EntityManager.

(** ** ComponentPool<T> *)

(** A [T*] returned by a pool: null, or the address of [components[i]]. *)
Inductive pointer : Type :=
  | nullptr
  | element_at (i : nat).

Module ComponentPool.
Record t (T : Type) : Type := {
  components : list T;
  entityToIndex : gmap Z Z;
  indexToEntity : gmap Z Z
}.
Arguments components {T} _.
Arguments entityToIndex {T} _.
Arguments indexToEntity {T} _.

Definition new {T} : t T :=
  {| components := []; entityToIndex := ∅; indexToEntity := ∅ |}.

Definition add {T} (entity : Entity) (component : T) (p : t T) : t T :=
  let components' := components p ++ [component] in
  {| components := components';
     entityToIndex :=
       <[entity := Z.of_nat (length components') - 1]> (entityToIndex p);
     indexToEntity :=
       <[Z.of_nat (length components') - 1 := entity]> (indexToEntity p) |}.

Definition remove {T} (removeEntity : Entity) (p : t T) : t T :=
  let '(indexOfRemoveEntity, entityToIndex1) :=
    unordered_map.subscript (entityToIndex p) removeEntity in
  let indexOfLastComponent := Z.of_nat (length (components p)) - 1 in
  let '(entityOfLastComponent, indexToEntity1) :=
    unordered_map.subscript (indexToEntity p) indexOfLastComponent in
  let components' := ECSUtils.swapRemove (components p) indexOfRemoveEntity in
  let entityToIndex2 := <[entityOfLastComponent := indexOfRemoveEntity]> entityToIndex1 in
  let indexToEntity2 := <[indexOfRemoveEntity := entityOfLastComponent]> indexToEntity1 in
  {| components := components';
     entityToIndex := delete removeEntity entityToIndex2;
     indexToEntity := delete indexOfRemoveEntity indexToEntity2 |}.

(** The body of the [try] block of [get]: [&(components[entityToIndex[entity]])]. *)
Definition get_try {T} (entity : Entity) (p : t T) : outcome (pointer * t T) :=
  let '(index, entityToIndex') := unordered_map.subscript (entityToIndex p) entity in
  let p' := {| components := components p;
               entityToIndex := entityToIndex';
               indexToEntity := indexToEntity p |} in
  _ ← at_index (components p) index;
  Ok (element_at (Z.to_nat index), p').

Definition get {T} (entity : Entity) (p : t T) : outcome (pointer * t T) :=
  try_catch_out_of_range (get_try entity p) (Ok (nullptr, p)).

Definition onEntityDestroy {T} (entity : Entity) (p : t T) : t T :=
  remove entity p.

(** Reading through a pointer obtained from the pool. *)
Definition load {T} (ptr : pointer) (p : t T) : option T :=
  match ptr with
  | nullptr => None
  | element_at i => components p !! i
  end.
End ComponentPool.

(** ** ComponentManager *)

Module ComponentManager.
(** The two function-local statics: the counter of [getComponentTypeId()]
    and, per instantiation [T] of [getComponentTypeId<T>()], the id it was
    initialised with on its first call.  C++ types are named by strings. *)
Record statics : Type := {
  counter : Z;
  type_id : gmap string Z
}.

Definition statics_init : statics := {| counter := 0; type_id := ∅ |}.

(** [static int id = 0; return id++;] *)
Definition nextComponentTypeId (st : statics) : Z * statics :=
  (counter st, {| counter := counter st + 1; type_id := type_id st |}).

(** [static int id = getComponentTypeId(); return id;] *)
Definition getComponentTypeId (T : string) (st : statics) : Z * statics :=
  match type_id st !! T with
  | Some id => (id, st)
  | None =>
      let '(id, st') := nextComponentTypeId st in
      (id, {| counter := counter st'; type_id := <[T := id]> (type_id st') |})
  end.

(** A slot of [componentPoolArray]: [None] is the null pointer, [Some (T, p)]
    points to a [ComponentPool<T>] whose state is [p].  Component values of
    all types live in one value type [V]. *)
Record t (V : Type) : Type := {
  componentPoolArray : list (option (string * ComponentPool.t V))
}.
Arguments componentPoolArray {V} _.

Definition new {V} : t V :=
  {| componentPoolArray := replicate (Z.to_nat MAX_COMPONENTS) None |}.

Definition registerComponent {V} (T : string) (st : statics) (cm : t V)
  : outcome (statics * t V) :=
  let '(id, st') := getComponentTypeId T st in
  _ ← at_index (componentPoolArray cm) id;
  Ok (st', {| componentPoolArray :=
                <[Z.to_nat id := Some (T, ComponentPool.new)]> (componentPoolArray cm) |}).

(** [dynamic_cast<ComponentPool<T>*>(componentPoolArray[id])], returned as
    the slot number together with the pool it points to. *)
Definition getComponentPool {V} (T : string) (st : statics) (cm : t V)
  : outcome (option (nat * ComponentPool.t V) * statics) :=
  let '(id, st') := getComponentTypeId T st in
  ptr ← at_index (componentPoolArray cm) id;
  match ptr with
  | Some (T', p) =>
      if decide (T' = T) then Ok (Some (Z.to_nat id, p), st') else Ok (None, st')
  | None => Ok (None, st')
  end.

Definition store {V} (slot : nat) (T : string) (p : ComponentPool.t V) (cm : t V) : t V :=
  {| componentPoolArray := <[slot := Some (T, p)]> (componentPoolArray cm) |}.

Definition add {V} (T : string) (entity : Entity) (component : V)
    (st : statics) (cm : t V) : outcome (statics * t V) :=
  '(componentPool, st') ← getComponentPool T st cm;
  match componentPool with
  | None => Ok (st', cm)
  | Some (slot, p) => Ok (st', store slot T (ComponentPool.add entity component p) cm)
  end.

Definition remove {V} (T : string) (entity : Entity)
    (st : statics) (cm : t V) : outcome (statics * t V) :=
  '(componentPool, st') ← getComponentPool T st cm;
  match componentPool with
  | None => Ok (st', cm)
  | Some (slot, p) => Ok (st', store slot T (ComponentPool.remove entity p) cm)
  end.

(** [get] calls through the pointer without a null test. *)
Definition get {V} (T : string) (entity : Entity)
    (st : statics) (cm : t V) : outcome (pointer * statics * t V) :=
  '(componentPool, st') ← getComponentPool T st cm;
  match componentPool with
  | None => Undefined
  | Some (slot, p) =>
      '(ptr, p') ← ComponentPool.get entity p;
      Ok (ptr, st', store slot T p' cm)
  end.

Definition onEntityDestroy {V} (entity : Entity) (cm : t V) : t V :=
  {| componentPoolArray :=
       (λ componentPool,
          match componentPool with
          | Some (T, p) => Some (T, ComponentPool.onEntityDestroy entity p)
          | None => None
          end) <$> componentPoolArray cm |}.
End ComponentManager.

(** ** ISystem and SystemManager *)

(** Of a system the managers use only [getSignature()]; [process] belongs to
    the application.  Systems are registered through non-null pointers.  A
    system is represented by the bitset its [getSignature()] returns: the
    overrides of [src/main.cpp] set the bits of the ids of fixed types, and
    the id of a type never changes, so every call that returns gives the
    same bitset.  Two effects of those overrides are not part of the
    record: they ask for type ids, which may hand out a new id (a run
    renders this by a [getComponentTypeId] call of its own), and they throw
    [std::out_of_range] when such an id is [MAX_COMPONENTS] or more.  So
    [onEntitySignatureChange] below describes the calls in which every
    [getSignature()] returns, and what is stated of [assignComponent] and
    [removeComponent] for arbitrary systems is stated of the calls that
    return. *)
Record ISystem : Type := { getSignature : Signature }.

Module SystemManager.
Record t : Type := {
  systems : list ISystem;
  entitiesVec : list (list Entity)
}.

Definition new : t := {| systems := []; entitiesVec := [] |}.

Definition registerSystem (system : ISystem) (sm : t) : t :=
  {| systems := systems sm ++ [system];
     entitiesVec := entitiesVec sm ++ [[]] |}.

Definition set_entities (i : nat) (entities : list Entity) (sm : t) : t :=
  {| systems := systems sm; entitiesVec := <[i := entities]> (entitiesVec sm) |}.

Definition onEntitySignatureChange_body (entity : Entity) (signature : Signature)
    (i : nat) (sm : t) : outcome t :=
  system ← at_index (systems sm) (Z.of_nat i);
  let systemSignature := getSignature system in
  if decide (Z.land signature systemSignature = systemSignature) then
    entities ← at_index (entitiesVec sm) (Z.of_nat i);
    if decide (entity ∈ entities) then Ok sm
    else Ok (set_entities i (entities ++ [entity]) sm)
  else
    entities ← at_index (entitiesVec sm) (Z.of_nat i);
    Ok (set_entities i (ECSUtils.swapRemove entities entity) sm).

Definition onEntitySignatureChange (entity : Entity) (signature : Signature)
    (sm : t) : outcome t :=
  for_loop (length (systems sm)) (onEntitySignatureChange_body entity signature) sm.

Definition onEntityDestroy_body (entity : Entity) (i : nat) (sm : t) : outcome t :=
  entities ← at_index (entitiesVec sm) (Z.of_nat i);
  Ok (set_entities i (ECSUtils.swapRemove entities entity) sm).

Definition onEntityDestroy (entity : Entity) (sm : t) : outcome t :=
  for_loop (length (systems sm)) (onEntityDestroy_body entity) sm.
End SystemManager.

(** ** ECS *)

Module ECS.
Record t (V : Type) : Type := {
  entityManager : EntityManager.t;
  componentManager : ComponentManager.t V;
  systemManager : SystemManager.t
}.
Arguments entityManager {V} _.
Arguments componentManager {V} _.
Arguments systemManager {V} _.

(** What a call of the facade works on: the [ECS] object and the statics of
    [ComponentManager], which belong to the program and not to the object. *)
Record state (V : Type) : Type := {
  statics : ComponentManager.statics;
  ecs : t V
}.
Arguments statics {V} _.
Arguments ecs {V} _.

Definition init {V} : state V :=
  {| statics := ComponentManager.statics_init;
     ecs := {| entityManager := EntityManager.new;
               componentManager := ComponentManager.new;
               systemManager := SystemManager.new |} |}.

Definition newEntity {V} (s : state V) : outcome (Entity * state V) :=
  '(entity, em) ← EntityManager.createNew (entityManager (ecs s));
  Ok (entity,
      {| statics := statics s;
         ecs := {| entityManager := em;
                   componentManager := componentManager (ecs s);
                   systemManager := systemManager (ecs s) |} |}).

Definition getSignature {V} (entity : Entity) (s : state V) : outcome Signature :=
  EntityManager.getSignature entity (entityManager (ecs s)).

Definition destroyEntity {V} (entity : Entity) (s : state V) : outcome (state V) :=
  em ← EntityManager.destroy entity (entityManager (ecs s));
  let cm := ComponentManager.onEntityDestroy entity (componentManager (ecs s)) in
  sm ← SystemManager.onEntityDestroy entity (systemManager (ecs s));
  Ok {| statics := statics s;
        ecs := {| entityManager := em; componentManager := cm; systemManager := sm |} |}.

Definition registerComponent {V} (T : string) (s : state V) : outcome (state V) :=
  '(st, cm) ← ComponentManager.registerComponent T (statics s) (componentManager (ecs s));
  Ok {| statics := st;
        ecs := {| entityManager := entityManager (ecs s);
                  componentManager := cm;
                  systemManager := systemManager (ecs s) |} |}.

Definition assignComponent {V} (T : string) (entity : Entity) (component : V)
    (s : state V) : outcome (state V) :=
  '(st1, cm) ← ComponentManager.add T entity component (statics s) (componentManager (ecs s));
  signature ← EntityManager.getSignature entity (entityManager (ecs s));
  let '(id, st2) := ComponentManager.getComponentTypeId T st1 in
  signature' ← bitset.set signature id;
  em ← EntityManager.setSignature entity signature' (entityManager (ecs s));
  sm ← SystemManager.onEntitySignatureChange entity signature' (systemManager (ecs s));
  Ok {| statics := st2;
        ecs := {| entityManager := em; componentManager := cm; systemManager := sm |} |}.

Definition removeComponent {V} (T : string) (entity : Entity)
    (s : state V) : outcome (state V) :=
  '(st1, cm) ← ComponentManager.remove T entity (statics s) (componentManager (ecs s));
  signature ← EntityManager.getSignature entity (entityManager (ecs s));
  let '(id, st2) := ComponentManager.getComponentTypeId T st1 in
  signature' ← bitset.reset signature id;
  em ← EntityManager.setSignature entity signature' (entityManager (ecs s));
  sm ← SystemManager.onEntitySignatureChange entity signature' (systemManager (ecs s));
  Ok {| statics := st2;
        ecs := {| entityManager := em; componentManager := cm; systemManager := sm |} |}.

Definition getComponent {V} (T : string) (entity : Entity)
    (s : state V) : outcome (pointer * state V) :=
  '(ptr, st, cm) ← ComponentManager.get T entity (statics s) (componentManager (ecs s));
  Ok (ptr,
      {| statics := st;
         ecs := {| entityManager := entityManager (ecs s);
                   componentManager := cm;
                   systemManager := systemManager (ecs s) |} |}).

Definition registerSystem {V} (system : ISystem) (s : state V) : state V :=
  {| statics := statics s;
     ecs := {| entityManager := entityManager (ecs s);
               componentManager := componentManager (ecs s);
               systemManager := SystemManager.registerSystem system (systemManager (ecs s)) |} |}.

(** A system that asks for a type id, as the [getSignature] overrides of
    the application do through [ISystem::getComponentTypeId<T>()]. *)
Definition getComponentTypeId {V} (T : string) (s : state V) : Z * state V :=
  let '(id, st) := ComponentManager.getComponentTypeId T (statics s) in
  (id, {| statics := st; ecs := ecs s |}).

(** *** Observations used by the specifications *)

(** The pool registered for [T], if any. *)
Definition pool_of {V} (T : string) (s : state V) : option (ComponentPool.t V) :=
  id ← ComponentManager.type_id (statics s) !! T;
  slot ← ComponentManager.componentPoolArray (componentManager (ecs s)) !! Z.to_nat id;
  '(T', p) ← slot;
  if decide (T' = T) then Some p else None.

(** Reading through a pointer returned by [getComponent<T>]. *)
Definition load {V} (T : string) (ptr : pointer) (s : state V) : option V :=
  p ← pool_of T s;
  ComponentPool.load ptr p.

(** [T] has been registered: it has an id and the slot of that id points
    to a pool of [T]. *)
Definition registered {V} (T : string) (s : state V) : Prop :=
  is_Some (pool_of T s).

(** The members of the [i]-th registered system. *)
Definition members {V} (i : nat) (s : state V) : option (list Entity) :=
  SystemManager.entitiesVec (systemManager (ecs s)) !! i.

(** *** Runs of the facade

    [reachable s live]: the program can be in state [s] after calls of the
    facade that returned, and [live] are the entities created and not yet
    destroyed.  Entities are destroyed only while live. *)
Inductive reachable {V} : state V → list Entity → Prop :=
  | reach_init : reachable init []
  | reach_registerComponent s live T s' :
      reachable s live → registerComponent T s = Ok s' → reachable s' live
  | reach_registerSystem s live system :
      reachable s live → reachable (registerSystem system s) live
  | reach_getComponentTypeId s live T :
      reachable s live → reachable (getComponentTypeId T s).2 live
  | reach_newEntity s live entity s' :
      reachable s live → newEntity s = Ok (entity, s') → reachable s' (entity :: live)
  | reach_destroyEntity s live entity s' :
      reachable s live → entity ∈ live → destroyEntity entity s = Ok s' →
      reachable s' (filter (λ e, e ≠ entity) live)
  | reach_assignComponent s live T entity component s' :
      reachable s live → assignComponent T entity component s = Ok s' → reachable s' live
  | reach_removeComponent s live T entity s' :
      reachable s live → removeComponent T entity s = Ok s' → reachable s' live
  | reach_getComponent s live T entity ptr s' :
      reachable s live → getComponent T entity s = Ok (ptr, s') → reachable s' live.
End ECS.

(** ** Programs over the facade *)

(** A call of the facade, and a program as a list of calls run from the
    initial state.  The second component of the run state is the list of
    live entities: created by [newEntity] and not destroyed since.
    [destroyEntity] on an entity that is not live is a violation of the
    caller's contract and ends the run as undefined. *)
Inductive call (V : Type) : Type :=
  | RegisterComponent (T : string)
  | RegisterSystem (system : ISystem)
  | GetComponentTypeId (T : string)
  | NewEntity
  | DestroyEntity (entity : Entity)
  | AssignComponent (T : string) (entity : Entity) (component : V)
  | RemoveComponent (T : string) (entity : Entity)
  | GetComponent (T : string) (entity : Entity).
Arguments RegisterComponent {V} T.
Arguments RegisterSystem {V} system.
Arguments GetComponentTypeId {V} T.
Arguments NewEntity {V}.
Arguments DestroyEntity {V} entity.
Arguments AssignComponent {V} T entity component.
Arguments RemoveComponent {V} T entity.
Arguments GetComponent {V} T entity.

Definition exec {V} (c : call V) (sl : ECS.state V * list Entity)
  : outcome (ECS.state V * list Entity) :=
  let '(s, live) := sl in
  match c with
  | RegisterComponent T => s' ← ECS.registerComponent T s; Ok (s', live)
  | RegisterSystem system => Ok (ECS.registerSystem system s, live)
  | GetComponentTypeId T => Ok ((ECS.getComponentTypeId T s).2, live)
  | NewEntity => '(entity, s') ← ECS.newEntity s; Ok (s', entity :: live)
  | DestroyEntity entity =>
      if decide (entity ∈ live) then
        s' ← ECS.destroyEntity entity s; Ok (s', filter (λ e, e ≠ entity) live)
      else Undefined
  | AssignComponent T entity component =>
      s' ← ECS.assignComponent T entity component s; Ok (s', live)
  | RemoveComponent T entity => s' ← ECS.removeComponent T entity s; Ok (s', live)
  | GetComponent T entity => '(_, s') ← ECS.getComponent T entity s; Ok (s', live)
  end.

Definition run {V} (calls : list (call V)) (sl : ECS.state V * list Entity)
  : outcome (ECS.state V * list Entity) :=
  foldl (λ acc c, sl' ← acc; exec c sl') (Ok sl) calls.

Definition start {V} : ECS.state V * list Entity := (ECS.init, []).

(** Successive calls of [getComponentTypeId<T>()] for the types of a list,
    with the ids they return. *)
Fixpoint query_all (Ts : list string) (st : ComponentManager.statics)
  : list Z * ComponentManager.statics :=
  match Ts with
  | [] => ([], st)
  | T :: Ts' =>
      let '(id, st1) := ComponentManager.getComponentTypeId T st in
      let '(ids, st2) := query_all Ts' st1 in
      (id :: ids, st2)
  end.

(** What holds of the statics once the queries [Ts] have returned [ids]:
    every query returned the id recorded for its type, the recorded types
    are the queried ones, the counter is their number, ids lie below the
    counter and are pairwise distinct, and the id of a type is the number of
    distinct types queried before its first query. *)
Definition queried (Ts : list string) (ids : list Z) (st : ComponentManager.statics) : Prop :=
  length ids = length Ts ∧
  (∀ k T, Ts !! k = Some T →
     ∃ id, ids !! k = Some id ∧ ComponentManager.type_id st !! T = Some id) ∧
  dom (ComponentManager.type_id st) = list_to_set Ts ∧
  ComponentManager.counter st = Z.of_nat (size (list_to_set Ts : gset string)) ∧
  (∀ T id, ComponentManager.type_id st !! T = Some id → 0 ≤ id < ComponentManager.counter st) ∧
  (∀ T1 T2 id, ComponentManager.type_id st !! T1 = Some id →
     ComponentManager.type_id st !! T2 = Some id → T1 = T2) ∧
  (∀ k T, Ts !! k = Some T → T ∉ take k Ts →
     ComponentManager.type_id st !! T =
       Some (Z.of_nat (size (list_to_set (take k Ts) : gset string)))).

(** What holds of every reachable state: the free queue and the live
    entities together are the ids [0 .. MAX_ENTITIES - 1], each once; the two
    arrays have their declared sizes; there is one membership list per
    system; the counter and the type ids are not negative. *)
Definition consistent {V} (s : ECS.state V) (live : list Entity) : Prop :=
  EntityManager.availableEntities (ECS.entityManager (ECS.ecs s)) ++ live
    ≡ₚ seqZ 0 MAX_ENTITIES ∧
  length (EntityManager.signatures (ECS.entityManager (ECS.ecs s))) = Z.to_nat MAX_ENTITIES ∧
  length (ComponentManager.componentPoolArray (ECS.componentManager (ECS.ecs s)))
    = Z.to_nat MAX_COMPONENTS ∧
  length (SystemManager.entitiesVec (ECS.systemManager (ECS.ecs s)))
    = length (SystemManager.systems (ECS.systemManager (ECS.ecs s))) ∧
  0 ≤ ComponentManager.counter (ECS.statics s) ∧
  (∀ T id, ComponentManager.type_id (ECS.statics s) !! T = Some id → 0 ≤ id).

(** The loops over the systems keep the systems and the number of
    membership lists. *)
Definition same_shape (sm sm' : SystemManager.t) : Prop :=
  SystemManager.systems sm' = SystemManager.systems sm ∧
  length (SystemManager.entitiesVec sm') = length (SystemManager.entitiesVec sm).

(** ** The invariants the specification asks for *)

(** Membership of every system is exactly the live entities whose signature
    contains the system's, without duplicates. *)
Definition membership_exact {V} (s : ECS.state V) (live : list Entity) : Prop :=
  ∀ i system entities,
    SystemManager.systems (ECS.systemManager (ECS.ecs s)) !! i = Some system →
    ECS.members i s = Some entities →
    NoDup entities ∧
    ∀ e, e ∈ entities ↔
         e ∈ live ∧ ∃ signature, ECS.getSignature e s = Ok signature ∧
                    Z.land signature (getSignature system) = getSignature system.

(** The two maps of a pool are inverse of each other and the positions are
    exactly those of the dense vector. *)
Definition index_maps_inverse {T} (p : ComponentPool.t T) : Prop :=
  (∀ e i, ComponentPool.entityToIndex p !! e = Some i ↔
          ComponentPool.indexToEntity p !! i = Some e) ∧
  (∀ i, is_Some (ComponentPool.indexToEntity p !! i) ↔
        0 ≤ i < Z.of_nat (length (ComponentPool.components p))).

(** ** The application's types and systems ([src/main.cpp])

    [Transform] is registered first and [Physic] second, so their ids are 0
    and 1; [RenderSystem] asks for [Transform], [PhysicSystem] for both. *)
Definition RenderSystem : ISystem := {| getSignature := Z.setbit 0 0 |}.
Definition PhysicSystem : ISystem := {| getSignature := Z.setbit (Z.setbit 0 0) 1 |}.

(** Two component types, both systems, two entities; component values are
    numbers here. *)
Definition setup : list (call Z) :=
  [ RegisterComponent "Transform"; RegisterComponent "Physic";
    RegisterSystem RenderSystem; RegisterSystem PhysicSystem;
    NewEntity; NewEntity ].

(** * Further definitions

    Observations, invariants and sample worlds used by the properties of
    the second part, and the rest of [src/main.cpp]. *)

(** The component an entity has in a pool: the value at the position the
    pool records for it (a lookup that changes nothing). *)
Definition value_of {T} (p : ComponentPool.t T) (entity : Entity) : option T :=
  i ← ComponentPool.entityToIndex p !! entity;
  if decide (0 ≤ i) then ComponentPool.components p !! Z.to_nat i else None.

(** What one pass of the loop of [onEntitySignatureChange] does to the
    membership list of one system. *)
Definition update_members (entity : Entity) (signature : Signature)
    (system : ISystem) (entities : list Entity) : list Entity :=
  if decide (Z.land signature (getSignature system) = getSignature system) then
    if decide (entity ∈ entities) then entities else entities ++ [entity]
  else ECSUtils.swapRemove entities entity.

(** The counter is not negative, type ids lie below it and no two types
    share one. *)
Definition ids_wf (st : ComponentManager.statics) : Prop :=
  0 ≤ ComponentManager.counter st ∧
  (∀ T id, ComponentManager.type_id st !! T = Some id →
           0 ≤ id < ComponentManager.counter st) ∧
  (∀ T1 T2 id, ComponentManager.type_id st !! T1 = Some id →
               ComponentManager.type_id st !! T2 = Some id → T1 = T2).

(** Every membership list is free of duplicates and holds entity ids only. *)
Definition members_ok (sm : SystemManager.t) : Prop :=
  Forall (λ l, NoDup l ∧ Forall (λ e, 0 ≤ e < MAX_ENTITIES) l) (SystemManager.entitiesVec sm).

(** The array after a call on type [T]: unchanged, or the slot that held a
    pool of [T] holds a pool of [T] again. *)
Definition updated_for {V} (T : string) (cm cm' : ComponentManager.t V) : Prop :=
  cm' = cm ∨
  ∃ slot p p', ComponentManager.componentPoolArray cm !! slot = Some (Some (T, p)) ∧
               cm' = ComponentManager.store slot T p' cm.

(** The slot found for a type is a function of the statics and the array. *)
Definition slot_of {V} (T : string) (st : ComponentManager.statics) (cm : ComponentManager.t V)
  : option (ComponentPool.t V) :=
  id ← ComponentManager.type_id st !! T;
  slot ← ComponentManager.componentPoolArray cm !! Z.to_nat id;
  '(T', p) ← slot;
  if decide (T' = T) then Some p else None.

(** ** The rest of [src/main.cpp]

    [getSignature] of the two systems, as written: a fresh bitset, one
    [set(getComponentTypeId<T>())] per required type.  [initECS] with the
    random component values of entity [i] given as [transform i] and
    [physic i]; the systems it registers answer [getSignature] with the
    bitsets [RenderSystem] and [PhysicSystem], which is what the overrides
    return once [Transform] and [Physic] are registered in this order. *)
Definition RenderSystem_getSignature (st : ComponentManager.statics)
  : outcome (Signature * ComponentManager.statics) :=
  let signature := 0 in
  let '(id, st1) := ComponentManager.getComponentTypeId "Transform" st in
  signature ← bitset.set signature id;
  Ok (signature, st1).

Definition PhysicSystem_getSignature (st : ComponentManager.statics)
  : outcome (Signature * ComponentManager.statics) :=
  let signature := 0 in
  let '(id, st1) := ComponentManager.getComponentTypeId "Transform" st in
  signature ← bitset.set signature id;
  let '(id, st2) := ComponentManager.getComponentTypeId "Physic" st1 in
  signature ← bitset.set signature id;
  Ok (signature, st2).

Definition initECS_entity {V} (transform physic : nat → V) (i : nat) (s : ECS.state V)
  : outcome (ECS.state V) :=
  '(entity, s) ← ECS.newEntity s;
  s ← ECS.assignComponent "Transform" entity (transform i) s;
  ECS.assignComponent "Physic" entity (physic i) s.

Definition initECS {V} (transform physic : nat → V) (s : ECS.state V)
  : outcome (ECS.state V) :=
  s ← ECS.registerComponent "Transform" s;
  s ← ECS.registerComponent "Physic" s;
  let s := ECS.registerSystem RenderSystem s in
  let s := ECS.registerSystem PhysicSystem s in
  for_loop (Z.to_nat MAX_ENTITIES) (initECS_entity transform physic) s.

(** ** Sample worlds

    The world after [setup], the same world after entity 1 got a
    [Transform], and a world with one entity and no registered type. *)
Definition world_after_setup : ECS.state Z * list Entity :=
  match run setup start with
  | Ok sl => sl
  | _ => start
  end.

Definition world_after_assign : ECS.state Z :=
  match ECS.assignComponent "Transform" 1 7 world_after_setup.1 with
  | Ok s => s
  | _ => world_after_setup.1
  end.

Definition world_one_entity : ECS.state Z * list Entity :=
  match run [NewEntity] start with
  | Ok sl => sl
  | _ => start
  end.

Definition two_entity_pool : ComponentPool.t Z :=
  ComponentPool.add 1 11 (ComponentPool.add 0 10 ComponentPool.new).

(** * Properties *)

(** ** Outcomes and loops *)

Lemma bind_Ok {A B} (m : outcome A) (f : A → outcome B) (b : B) :
  m ≫= f = Ok b → ∃ a, m = Ok a ∧ f a = Ok b.
Proof. destruct m as [a| |]; simpl; [eauto | done | done]. Qed.

Ltac inv_bind H :=
  let a := fresh "a" in
  let Ha := fresh "Ha" in
  apply bind_Ok in H as (a & Ha & H).

Lemma at_index_Ok {A} (a : list A) (i : Z) (x : A) :
  at_index a i = Ok x ↔ 0 ≤ i ∧ a !! Z.to_nat i = Some x.
Proof.
  unfold at_index. case_decide as Hi.
  - destruct (a !! Z.to_nat i); split; intros H; try done.
    + by inversion H.
    + destruct H as [_ H]. by inversion H.
    + by destruct H.
  - split; [done | intros [? _]; lia].
Qed.

Lemma at_index_in_range {A} (a : list A) (i : Z) :
  0 ≤ i < Z.of_nat (length a) → ∃ x, at_index a i = Ok x.
Proof.
  intros Hi. destruct (lookup_lt_is_Some_2 a (Z.to_nat i)) as [x Hx]; [lia |].
  exists x. apply at_index_Ok. split; [lia | done].
Qed.

Lemma for_loop_S {S} (n : nat) (body : nat → S → outcome S) (s : S) :
  for_loop (Datatypes.S n) body s = for_loop n body s ≫= body n.
Proof. unfold for_loop. by rewrite seq_S, foldl_snoc. Qed.

(** A loop whose body keeps an invariant returns, and keeps it. *)
Lemma for_loop_invariant {S} (P : S → Prop) (n : nat) (body : nat → S → outcome S) (s : S) :
  P s →
  (∀ i s1, (i < n)%nat → P s1 → ∃ s2, body i s1 = Ok s2 ∧ P s2) →
  ∃ s', for_loop n body s = Ok s' ∧ P s'.
Proof.
  intros Hs. induction n as [|n IH]; intros Hbody.
  - exists s. by split.
  - destruct IH as (s1 & Hloop & Hs1); [intros; apply Hbody; [lia | done] |].
    rewrite for_loop_S, Hloop. simpl. apply Hbody; [lia | done].
Qed.

(** The same for a loop that is known to have returned. *)
Lemma for_loop_preserves {S} (P : S → Prop) (n : nat) (body : nat → S → outcome S) (s s' : S) :
  P s →
  (∀ i s1 s2, (i < n)%nat → P s1 → body i s1 = Ok s2 → P s2) →
  for_loop n body s = Ok s' → P s'.
Proof.
  intros Hs. revert s'. induction n as [|n IH]; intros s' Hbody Hloop.
  - unfold for_loop in Hloop. simpl in Hloop. by inversion Hloop; subst.
  - rewrite for_loop_S in Hloop. inv_bind Hloop.
    eapply (Hbody n a); [lia | | done].
    apply IH; [| done]. intros; eapply Hbody; [| done..]. lia.
Qed.

(** ** ECSUtils::swapRemove *)

Lemma length_iter_swap {T} (vec : list T) (i j : nat) :
  length (ECSUtils.iter_swap vec i j) = length vec.
Proof.
  unfold ECSUtils.iter_swap.
  destruct (vec !! i), (vec !! j); try done. by rewrite !length_insert.
Qed.

Lemma length_pop_back {T} (vec : list T) :
  length (ECSUtils.pop_back vec) = (length vec - 1)%nat.
Proof. unfold ECSUtils.pop_back. rewrite length_take. lia. Qed.

Lemma length_swapRemove_le {T} (vec : list T) (index : Z) :
  (length (ECSUtils.swapRemove vec index) ≤ length vec)%nat.
Proof.
  unfold ECSUtils.swapRemove. repeat case_decide; try lia;
    rewrite length_pop_back, ?length_iter_swap; lia.
Qed.

(** C9. [swapRemove] is total and guarded.  On an empty vector, a negative
    index or an index at or beyond the size, the vector is returned
    unchanged.  On an index inside the vector the result is one element
    shorter, the position [index] (when it still exists, which needs more
    than one element) holds the former last element, and every other
    remaining position holds what it held. *)
Theorem swapRemove_total_guarded {T} (vec : list T) (index : Z) :
  (vec = [] ∨ index < 0 ∨ Z.of_nat (length vec) ≤ index →
     ECSUtils.swapRemove vec index = vec) ∧
  (0 ≤ index < Z.of_nat (length vec) →
     length (ECSUtils.swapRemove vec index) = (length vec - 1)%nat ∧
     ∀ i, (i < length vec - 1)%nat →
       ECSUtils.swapRemove vec index !! i =
       if decide (i = Z.to_nat index) then last vec else vec !! i).
Proof.
  unfold ECSUtils.swapRemove. split.
  - intros Hguard. case_decide as Hlen; [done |].
    case_decide as Hidx; [done |].
    destruct Hguard as [-> | Hguard]; [done | lia].
  - intros Hidx. case_decide as Hlen; [lia |].
    case_decide as Hout; [lia |]. split.
    + rewrite length_pop_back. case_decide; [by rewrite length_iter_swap | done].
    + intros i Hi. unfold ECSUtils.pop_back.
      case_decide as Hmany; [| lia].
      rewrite length_iter_swap, lookup_take_lt by lia.
      unfold ECSUtils.iter_swap.
      destruct (lookup_lt_is_Some_2 vec (Z.to_nat index)) as [x Hx]; [lia |].
      destruct (lookup_lt_is_Some_2 vec (length vec - 1)%nat) as [y Hy]; [lia |].
      rewrite Hx, Hy. case_decide as Heq.
      * subst i. rewrite list_lookup_insert_eq by (rewrite length_insert; lia).
        rewrite last_lookup. by replace (Init.Nat.pred (length vec)) with (length vec - 1)%nat by lia.
      * rewrite !list_lookup_insert_ne by lia. done.
Qed.

Lemma swapRemove_total_guarded_witness :
  ECSUtils.swapRemove [10; 20; 30] 5 = [10; 20; 30] ∧
  length (ECSUtils.swapRemove [10; 20; 30] 0) = 2%nat ∧
  ECSUtils.swapRemove [10; 20; 30] 0 !! 0%nat = Some 30.
Proof.
  destruct (swapRemove_total_guarded [10; 20; 30] 5) as [Hout _].
  destruct (swapRemove_total_guarded [10; 20; 30] 0) as [_ Hin].
  split; [apply Hout; simpl; lia |].
  destruct Hin as [Hlen Hlook]; [simpl; lia |].
  split; [exact Hlen |]. apply (Hlook 0%nat). simpl. lia.
Defined.

(** ** Programs and reachable states *)

Lemma run_snoc {V} (calls : list (call V)) (c : call V) sl :
  run (calls ++ [c]) sl = run calls sl ≫= exec c.
Proof. unfold run. by rewrite foldl_snoc. Qed.

Lemma exec_reachable {V} (c : call V) s live s' live' :
  ECS.reachable s live → exec c (s, live) = Ok (s', live') → ECS.reachable s' live'.
Proof.
  intros Hreach Hexec. destruct c; simpl in Hexec.
  - inv_bind Hexec. inversion Hexec; subst. by eapply ECS.reach_registerComponent.
  - inversion Hexec; subst. by apply ECS.reach_registerSystem.
  - inversion Hexec; subst. by apply ECS.reach_getComponentTypeId.
  - inv_bind Hexec. destruct a as [e s1]. inversion Hexec; subst.
    by eapply ECS.reach_newEntity.
  - case_decide as Hlive; [| done]. inv_bind Hexec. inversion Hexec; subst.
    by eapply ECS.reach_destroyEntity.
  - inv_bind Hexec. inversion Hexec; subst. by eapply ECS.reach_assignComponent.
  - inv_bind Hexec. inversion Hexec; subst. by eapply ECS.reach_removeComponent.
  - inv_bind Hexec. destruct a as [ptr s1]. inversion Hexec; subst.
    by eapply ECS.reach_getComponent.
Qed.

Lemma run_reachable {V} (calls : list (call V)) s live s' live' :
  ECS.reachable s live → run calls (s, live) = Ok (s', live') → ECS.reachable s' live'.
Proof.
  intros Hreach. revert s' live'.
  induction calls as [|c calls IH] using rev_ind; intros s' live' Hrun.
  - unfold run in Hrun. simpl in Hrun. by inversion Hrun; subst.
  - rewrite run_snoc in Hrun. inv_bind Hrun. destruct a as [s1 live1].
    eapply exec_reachable; [| done]. by apply IH.
Qed.

Lemma run_start_reachable {V} (calls : list (call V)) s live :
  run calls start = Ok (s, live) → ECS.reachable s live.
Proof. apply run_reachable. apply ECS.reach_init. Qed.

(** [observe Hrun f]: from [Hrun : run calls start = Ok (s, live)], the
    value of the observation [f] at the result, computed on the program. *)
Ltac observe Hrun f :=
  let H := fresh "Hobs" in
  pose proof (f_equal f Hrun) as H; cbv beta iota in H;
  match type of H with
  | ?l = _ =>
      let l' := eval vm_compute in l in
      replace l with l' in H by (vm_compute; reflexivity)
  end;
  symmetry in H.

Ltac run_returns s live Hrun :=
  destruct (run _ start) as [[s live]| |] eqn:Hrun;
  [ | vm_compute in Hrun; discriminate | vm_compute in Hrun; discriminate ].

(** ** System membership *)

(** C1. Membership is not kept exact: [onEntitySignatureChange] removes with
    [swapRemove(entitiesVec[i], entity)], which takes the entity id as a
    position.  First program: entity 1 alone gets a [Transform] and loses it
    again; its signature is empty afterwards and it is still the one member
    of [RenderSystem], because position 1 is outside the one-element list.
    Second program: entity 1 has both components and is the one member of
    [PhysicSystem]; giving entity 0 a [Transform] removes position 0 of that
    list, which is entity 1, whose signature still contains the system's. *)
Theorem membership_removed_by_position :
  (∃ s live,
     run (setup ++ [AssignComponent "Transform" 1 7; RemoveComponent "Transform" 1]) start
       = Ok (s, live) ∧
     ECS.reachable s live ∧ live = [1; 0] ∧
     ECS.getSignature 1 s = Ok 0 ∧ ECS.members 0 s = Some [1] ∧
     ¬ membership_exact s live) ∧
  (∃ s live,
     run (setup ++ [AssignComponent "Transform" 1 7; AssignComponent "Physic" 1 8;
                    AssignComponent "Transform" 0 9]) start = Ok (s, live) ∧
     ECS.reachable s live ∧ live = [1; 0] ∧
     ECS.getSignature 1 s = Ok 3 ∧ ECS.members 1 s = Some [] ∧
     ¬ membership_exact s live).
Proof.
  split.
  - run_returns s live Hrun. exists s, live.
    observe Hrun (λ r : outcome (ECS.state Z * list Z),
      match r with Ok (_, l) => l | _ => [] end).
    observe Hrun (λ r : outcome (ECS.state Z * list Z),
      match r with Ok (s, _) => ECS.getSignature 1 s | _ => Undefined end).
    observe Hrun (λ r : outcome (ECS.state Z * list Z),
      match r with Ok (s, _) => ECS.members 0 s | _ => None end).
    observe Hrun (λ r : outcome (ECS.state Z * list Z),
      match r with
      | Ok (s, _) => SystemManager.systems (ECS.systemManager (ECS.ecs s)) !! 0%nat
      | _ => None
      end).
    split; [done |]. split; [by eapply run_start_reachable |].
    do 3 (split; [done |]).
    intros Hexact.
    destruct (Hexact 0%nat _ _ Hobs2 Hobs1) as [_ Hmem].
    destruct (Hmem 1) as [Hin _].
    destruct Hin as (_ & signature & Hsig & Hland); [by apply list_elem_of_singleton |].
    rewrite Hobs0 in Hsig. inversion Hsig; subst signature. by vm_compute in Hland.
  - run_returns s live Hrun. exists s, live.
    observe Hrun (λ r : outcome (ECS.state Z * list Z),
      match r with Ok (_, l) => l | _ => [] end).
    observe Hrun (λ r : outcome (ECS.state Z * list Z),
      match r with Ok (s, _) => ECS.getSignature 1 s | _ => Undefined end).
    observe Hrun (λ r : outcome (ECS.state Z * list Z),
      match r with Ok (s, _) => ECS.members 1 s | _ => None end).
    observe Hrun (λ r : outcome (ECS.state Z * list Z),
      match r with
      | Ok (s, _) => SystemManager.systems (ECS.systemManager (ECS.ecs s)) !! 1%nat
      | _ => None
      end).
    split; [done |]. split; [by eapply run_start_reachable |].
    do 3 (split; [done |]).
    intros Hexact.
    destruct (Hexact 1%nat _ _ Hobs2 Hobs1) as [_ Hmem].
    destruct (Hmem 1) as [_ Hin].
    apply not_elem_of_nil in Hin; [done |].
    split; [rewrite Hobs; apply list_elem_of_here |].
    exists 3. split; [done |]. by vm_compute.
Qed.

(** ** Component pools *)

Lemma get_try_not_thrown {T} (entity : Entity) (p : ComponentPool.t T) (e : exn) :
  ComponentPool.get_try entity p ≠ Throw e.
Proof.
  unfold ComponentPool.get_try, at_index.
  destruct (unordered_map.subscript _ _) as [index m].
  case_decide; [| done]. by destruct (_ !! _).
Qed.

(** The handler of [get] is dead code: [get] is its [try] block. *)
Lemma get_is_get_try {T} (entity : Entity) (p : ComponentPool.t T) :
  ComponentPool.get entity p = ComponentPool.get_try entity p.
Proof.
  unfold ComponentPool.get, try_catch_out_of_range.
  pose proof (get_try_not_thrown entity p) as Hthrow.
  destruct (ComponentPool.get_try entity p) as [?|e|]; try done.
  destruct e; [done |]. by destruct (Hthrow std_out_of_range).
Qed.

(** C2. [getComponent] never reports absence.  [ComponentPool::get] cannot
    return [nullptr] for any pool and entity: [entityToIndex[entity]] inserts
    position 0 for a missing entity instead of throwing.  Entity 1 without a
    [Transform] therefore reads the [Transform] of entity 0, and reading the
    [Transform] of entity 0 right after it was removed indexes the empty
    vector. *)
Theorem getComponent_never_absent :
  (∀ (T : Type) (p p' : ComponentPool.t T) (entity : Entity),
     ComponentPool.get entity p ≠ Ok (nullptr, p')) ∧
  (∃ s live,
     run (setup ++ [AssignComponent "Transform" 0 7]) start = Ok (s, live) ∧
     ECS.getSignature 1 s = Ok 0 ∧
     (∃ p, ECS.pool_of "Transform" s = Some p ∧ ComponentPool.entityToIndex p !! 1 = None) ∧
     ∃ s', ECS.getComponent "Transform" 1 s = Ok (element_at 0, s') ∧
           ECS.load "Transform" (element_at 0) s' = Some 7) ∧
  (∃ s live,
     run (setup ++ [AssignComponent "Transform" 0 7; RemoveComponent "Transform" 0]) start
       = Ok (s, live) ∧
     ECS.getSignature 0 s = Ok 0 ∧
     ECS.getComponent "Transform" 0 s = Undefined).
Proof.
  split; [| split].
  - intros T p p' entity. rewrite get_is_get_try.
    unfold ComponentPool.get_try.
    destruct (unordered_map.subscript _ _) as [index m].
    destruct (at_index _ _); simpl; congruence.
  - run_returns s live Hrun. exists s, live.
    observe Hrun (λ r : outcome (ECS.state Z * list Z),
      match r with Ok (s, _) => ECS.getSignature 1 s | _ => Undefined end).
    observe Hrun (λ r : outcome (ECS.state Z * list Z),
      match r with
      | Ok (s, _) =>
          p ← ECS.pool_of "Transform" s; Some (ComponentPool.entityToIndex p !! 1)
      | _ => None
      end).
    observe Hrun (λ r : outcome (ECS.state Z * list Z),
      match r with
      | Ok (s, _) =>
          match ECS.getComponent "Transform" 1 s with
          | Ok (ptr, s') => Some (ptr, ECS.load "Transform" ptr s')
          | _ => None
          end
      | _ => None
      end).
    split; [done |]. split; [done |]. split.
    + destruct (ECS.pool_of "Transform" s) as [p|]; [| done].
      exists p. split; [done |]. simpl in Hobs0. congruence.
    + destruct (ECS.getComponent "Transform" 1 s) as [[ptr s']| |]; try done.
      exists s'. inversion Hobs1; subst ptr. by split.
  - run_returns s live Hrun. exists s, live.
    observe Hrun (λ r : outcome (ECS.state Z * list Z),
      match r with Ok (s, _) => ECS.getSignature 0 s | _ => Undefined end).
    observe Hrun (λ r : outcome (ECS.state Z * list Z),
      match r with
      | Ok (s, _) =>
          match ECS.getComponent "Transform" 0 s with
          | Ok (ptr, _) => Some (Some ptr)
          | Throw _ => Some None
          | Undefined => None
          end
      | _ => Some None
      end).
    split; [done |]. split; [done |].
    by destruct (ECS.getComponent "Transform" 0 s) as [[ptr s']| |].
Qed.

(** C4. The two maps of a pool do not stay inverse.  After [add(0, 10)] and
    [add(1, 11)] they are; [remove(0)] moves the value of entity 1 to position
    0 and then erases the key [indexOfRemoveEntity] of [indexToEntity], the
    entry it has just written, instead of the key of the former last
    position: [indexToEntity] is left with position 1, outside the
    one-element vector, and has nothing at position 0. *)
Theorem remove_breaks_index_maps :
  let p : ComponentPool.t Z := ComponentPool.add 1 11 (ComponentPool.add 0 10 ComponentPool.new) in
  index_maps_inverse p ∧
  ComponentPool.remove 0 p =
    {| ComponentPool.components := [11];
       ComponentPool.entityToIndex := {[ 1 := 0 ]};
       ComponentPool.indexToEntity := {[ 1 := 1 ]} |} ∧
  ¬ index_maps_inverse (ComponentPool.remove 0 p).
Proof.
  intros p. split; [| split].
  - subst p. unfold index_maps_inverse, ComponentPool.add. simpl. split.
    + intros e i. rewrite !lookup_insert_Some, !lookup_empty.
      intuition (try discriminate; lia).
    + intros i. rewrite !lookup_insert_is_Some, lookup_empty.
      pose proof (@is_Some_None Z). intuition lia.
  - by vm_compute.
  - intros [_ Hpos]. specialize (Hpos 1). destruct Hpos as [Hpos _].
    assert (0 ≤ 1 < Z.of_nat 1) by (apply Hpos; exists 1; by vm_compute). lia.
Qed.

(** C5. Removing from a pool an entity that has no entry raises nothing and
    changes the pool.  [remove] is a function into pools: it has no way to
    fail.  With entity 5 the only entry, [remove(7)] reads position 0 for
    entity 7, swap-removes the value of entity 5 and leaves entity 5 mapped
    to a position of the now empty vector.  Through the facade: removing the
    [Transform] that entity 1 does not have returns normally and destroys
    the [Transform] of entity 0. *)
Theorem remove_of_absent_entity :
  (let p : ComponentPool.t Z := ComponentPool.add 5 50 ComponentPool.new in
   ComponentPool.entityToIndex p !! 7 = None ∧
   ComponentPool.remove 7 p =
     {| ComponentPool.components := [];
        ComponentPool.entityToIndex := {[ 5 := 0 ]};
        ComponentPool.indexToEntity := ∅ |}) ∧
  (∃ s live s',
     run (setup ++ [AssignComponent "Transform" 0 7]) start = Ok (s, live) ∧
     (∃ p, ECS.pool_of "Transform" s = Some p ∧
           ComponentPool.entityToIndex p !! 1 = None ∧
           ComponentPool.components p = [7]) ∧
     ECS.removeComponent "Transform" 1 s = Ok s' ∧
     ∃ p', ECS.pool_of "Transform" s' = Some p' ∧
           ComponentPool.components p' = [] ∧
           ComponentPool.entityToIndex p' !! 0 = Some 0).
Proof.
  split; [split; by vm_compute |].
  run_returns s live Hrun.
  observe Hrun (λ r : outcome (ECS.state Z * list Z),
    match r with
    | Ok (s, _) =>
        p ← ECS.pool_of "Transform" s;
        Some (ComponentPool.entityToIndex p !! 1, ComponentPool.components p)
    | _ => None
    end).
  observe Hrun (λ r : outcome (ECS.state Z * list Z),
    match r with
    | Ok (s, _) =>
        match ECS.removeComponent "Transform" 1 s with
        | Ok s' =>
            (p ← ECS.pool_of "Transform" s';
             Some (ComponentPool.components p, ComponentPool.entityToIndex p !! 0))
            : option (list Z * option Z)
        | _ => None
        end
    | _ => None
    end).
  destruct (ECS.removeComponent "Transform" 1 s) as [s'| |] eqn:Hremove; try done.
  exists s, live, s'. split; [done |]. split.
  - destruct (ECS.pool_of "Transform" s) as [p|]; [| done].
    exists p. simpl in Hobs. split; [done |]. split; congruence.
  - split; [done |]. destruct (ECS.pool_of "Transform" s') as [p'|]; [| done].
    exists p'. simpl in Hobs0. split; [done |]. split; congruence.
Qed.

(** ** Destroying an entity *)

(** C3. [destroyEntity] clears the signature and nothing more can be relied
    on.  Entity 1 holds the only [Transform] and is the only member of
    [RenderSystem]; after [destroyEntity(1)] its signature is empty, it is
    still a member ([swapRemove] at position 1 of a one-element list does
    nothing), and [getComponent<Transform>(1)] indexes the empty vector
    instead of answering [nullptr].  When entity 1 has no component at all,
    [destroyEntity(1)] makes the pool remove position 0, the [Transform] of
    entity 0, whose signature and index entry stay behind. *)
Theorem destroyEntity_incomplete :
  (∃ s live s',
     run (setup ++ [AssignComponent "Transform" 1 7]) start = Ok (s, live) ∧
     1 ∈ live ∧ ECS.members 0 s = Some [1] ∧
     ECS.destroyEntity 1 s = Ok s' ∧
     ECS.getSignature 1 s' = Ok 0 ∧
     ECS.members 0 s' = Some [1] ∧
     ECS.getComponent "Transform" 1 s' = Undefined) ∧
  (∃ s live s',
     run (setup ++ [AssignComponent "Transform" 0 7]) start = Ok (s, live) ∧
     1 ∈ live ∧ ECS.getSignature 1 s = Ok 0 ∧
     ECS.destroyEntity 1 s = Ok s' ∧
     ECS.getSignature 0 s' = Ok 1 ∧
     ∃ p', ECS.pool_of "Transform" s' = Some p' ∧
           ComponentPool.components p' = [] ∧
           ComponentPool.entityToIndex p' !! 0 = Some 0).
Proof.
  split.
  - run_returns s live Hrun. exists s, live.
    observe Hrun (λ r : outcome (ECS.state Z * list Z),
      match r with Ok (_, l) => l | _ => [] end).
    observe Hrun (λ r : outcome (ECS.state Z * list Z),
      match r with Ok (s, _) => ECS.members 0 s | _ => None end).
    observe Hrun (λ r : outcome (ECS.state Z * list Z),
      match r with
      | Ok (s, _) =>
          match ECS.destroyEntity 1 s with
          | Ok s' =>
              Some (ECS.getSignature 1 s', ECS.members 0 s',
                    match ECS.getComponent "Transform" 1 s' with
                    | Ok (ptr, _) => Some (Some ptr)
                    | Throw _ => Some None
                    | Undefined => None
                    end)
          | _ => None
          end
      | _ => None
      end).
    destruct (ECS.destroyEntity 1 s) as [s'| |] eqn:Hdestroy; try done.
    exists s'. injection Hobs1 as Hsig Hmem Hget.
    split; [done |]. split; [rewrite Hobs; set_solver |].
    do 4 (split; [done |]).
    by destruct (ECS.getComponent "Transform" 1 s') as [[ptr s'']| |].
  - run_returns s live Hrun. exists s, live.
    observe Hrun (λ r : outcome (ECS.state Z * list Z),
      match r with Ok (_, l) => l | _ => [] end).
    observe Hrun (λ r : outcome (ECS.state Z * list Z),
      match r with Ok (s, _) => ECS.getSignature 1 s | _ => Undefined end).
    observe Hrun (λ r : outcome (ECS.state Z * list Z),
      match r with
      | Ok (s, _) =>
          match ECS.destroyEntity 1 s with
          | Ok s' =>
              Some (ECS.getSignature 0 s',
                    (p ← ECS.pool_of "Transform" s';
                     Some (ComponentPool.components p, ComponentPool.entityToIndex p !! 0))
                    : option (list Z * option Z))
          | _ => None
          end
      | _ => None
      end).
    destruct (ECS.destroyEntity 1 s) as [s'| |] eqn:Hdestroy; try done.
    exists s'. injection Hobs1 as Hsig Hpool.
    split; [done |]. split; [rewrite Hobs; set_solver |].
    do 3 (split; [done |]).
    destruct (ECS.pool_of "Transform" s') as [p'|]; [| done].
    exists p'. simpl in Hpool. split; [done |]. split; congruence.
Qed.

(** ** Registering component types *)

(** No registration throws: with every slot of the array taken by earlier
    ids, a new type gets the id [counter], outside the array, and the store
    into [componentPoolArray[id]] is out of bounds. *)
Lemma registerComponent_full {V} (T : string) st (cm : ComponentManager.t V) :
  ComponentManager.type_id st !! T = None →
  Z.of_nat (length (ComponentManager.componentPoolArray cm)) ≤ ComponentManager.counter st →
  ComponentManager.registerComponent T st cm = Undefined.
Proof.
  intros Hfresh Hfull.
  unfold ComponentManager.registerComponent, ComponentManager.getComponentTypeId.
  rewrite Hfresh. simpl. unfold at_index. case_decide; [| done].
  rewrite lookup_ge_None_2; [done | lia].
Qed.

(** C6. Registering a third component type with [MAX_COMPONENTS = 2] does not
    fail with an exception: after [Transform] and [Physic] the counter equals
    [MAX_COMPONENTS], [Color] gets id 2 and [componentPoolArray[2]] is
    written outside the two-slot array, which is undefined behaviour. *)
Theorem registerComponent_third_type :
  MAX_COMPONENTS = 2 ∧
  (∃ (s : ECS.state Z) live,
     run [RegisterComponent "Transform"; RegisterComponent "Physic"] start = Ok (s, live) ∧
     ComponentManager.counter (ECS.statics s) = MAX_COMPONENTS ∧
     ECS.registerComponent "Color" s = Undefined) ∧
  run (V:=Z) [RegisterComponent "Transform"; RegisterComponent "Physic";
              RegisterComponent "Color"] start = Undefined.
Proof.
  split; [done |]. split; [| by vm_compute].
  run_returns s live Hrun. exists s, live.
  observe Hrun (λ r : outcome (ECS.state Z * list Z),
    match r with Ok (s, _) => ComponentManager.counter (ECS.statics s) | _ => 0 end).
  observe Hrun (λ r : outcome (ECS.state Z * list Z),
    match r with
    | Ok (s, _) =>
        match ECS.registerComponent "Color" s with
        | Ok _ => Some true
        | Throw _ => Some false
        | Undefined => None
        end
    | _ => Some false
    end).
  split; [done |]. split; [done |].
  by destruct (ECS.registerComponent "Color" s).
Qed.

(** ** Component type ids *)

Lemma query_all_snoc (Ts : list string) (T : string) st :
  query_all (Ts ++ [T]) st =
  let '(ids, st1) := query_all Ts st in
  let '(id, st2) := ComponentManager.getComponentTypeId T st1 in
  (ids ++ [id], st2).
Proof.
  revert st. induction Ts as [|T' Ts IH]; intros st; simpl.
  - by destruct (ComponentManager.getComponentTypeId T st).
  - destruct (ComponentManager.getComponentTypeId T' st) as [id' st1].
    rewrite IH. destruct (query_all Ts st1) as [ids st2].
    by destruct (ComponentManager.getComponentTypeId T st2).
Qed.

Lemma getComponentTypeId_known (T : string) (id : Z) st :
  ComponentManager.type_id st !! T = Some id →
  ComponentManager.getComponentTypeId T st = (id, st).
Proof. intros H. unfold ComponentManager.getComponentTypeId. by rewrite H. Qed.

Lemma getComponentTypeId_fresh (T : string) st :
  ComponentManager.type_id st !! T = None →
  ComponentManager.getComponentTypeId T st =
    (ComponentManager.counter st,
     {| ComponentManager.counter := ComponentManager.counter st + 1;
        ComponentManager.type_id :=
          <[T := ComponentManager.counter st]> (ComponentManager.type_id st) |}).
Proof. intros H. unfold ComponentManager.getComponentTypeId. by rewrite H. Qed.

Lemma query_all_queried (Ts : list string) :
  queried Ts (query_all Ts ComponentManager.statics_init).1
             (query_all Ts ComponentManager.statics_init).2.
Proof.
  induction Ts as [|T Ts IH] using rev_ind.
  - unfold queried. simpl. split_and!; done.
  - rewrite query_all_snoc.
    destruct (query_all Ts ComponentManager.statics_init) as [ids st]. simpl in IH.
    destruct IH as (Hlen & Hrec & Hdom & Hcount & Hrange & Hinj & Hfirst).
    destruct (ComponentManager.type_id st !! T) as [id|] eqn:HT.
    + (* a repeated query *)
      rewrite (getComponentTypeId_known T id st HT). simpl.
      assert (HTin : T ∈ (list_to_set Ts : gset string)).
      { rewrite <- Hdom. apply elem_of_dom. by exists id. }
      assert (Hset : (list_to_set (Ts ++ [T]) : gset string) = list_to_set Ts).
      { rewrite list_to_set_snoc_L, union_comm_L.
        apply subseteq_union_1_L. by apply singleton_subseteq_l. }
      unfold queried. rewrite Hset. split_and!; try done.
      * rewrite !length_app. simpl. lia.
      * intros k T' Hk. destruct (decide (k < length Ts)%nat) as [Hlt | Hge].
        -- rewrite lookup_app_l in Hk by done. rewrite lookup_app_l by lia. by apply Hrec.
        -- rewrite lookup_app_r in Hk by lia. rewrite lookup_app_r by lia.
           rewrite Hlen. destruct (k - length Ts)%nat; [| done].
           simpl in Hk. inversion Hk; subst T'. exists id. by split.
      * intros k T' Hk Hnew. destruct (decide (k < length Ts)%nat) as [Hlt | Hge].
        -- rewrite lookup_app_l in Hk by done.
           rewrite take_app_le in Hnew |- * by lia. by apply Hfirst.
        -- rewrite lookup_app_r in Hk by lia.
           destruct (k - length Ts)%nat eqn:Hk0; [| done].
           simpl in Hk. inversion Hk; subst T'.
           rewrite take_app_ge in Hnew by lia.
           exfalso. apply Hnew. apply elem_of_app. left.
           by apply elem_of_list_to_set in HTin.
    + (* a first query *)
      rewrite (getComponentTypeId_fresh T st HT). simpl.
      assert (HTnew : T ∉ (list_to_set Ts : gset string)).
      { rewrite <- Hdom. by apply not_elem_of_dom. }
      assert (Hsize : size (list_to_set (Ts ++ [T]) : gset string)
                      = S (size (list_to_set Ts : gset string))).
      { rewrite list_to_set_snoc_L, size_union, size_singleton; [lia |].
        by apply disjoint_singleton_r. }
      unfold queried. simpl. split_and!.
      * rewrite !length_app. simpl. lia.
      * intros k T' Hk. destruct (decide (k < length Ts)%nat) as [Hlt | Hge].
        -- rewrite lookup_app_l in Hk by done. rewrite lookup_app_l by lia.
           destruct (Hrec k T' Hk) as (id & Hid & HT').
           exists id. split; [done |]. rewrite lookup_insert_ne; [done | congruence].
        -- rewrite lookup_app_r in Hk by lia. rewrite lookup_app_r by lia.
           rewrite Hlen. destruct (k - length Ts)%nat; [| done].
           simpl in Hk. inversion Hk; subst T'.
           exists (ComponentManager.counter st). by rewrite lookup_insert_eq.
      * by rewrite dom_insert_L, Hdom, list_to_set_snoc_L, union_comm_L.
      * rewrite Hsize, Hcount. lia.
      * intros T' id H.
        apply lookup_insert_Some in H as [[_ <-] | [_ H]]; [lia |].
        apply Hrange in H. lia.
      * intros T1 T2 id H1 H2.
        apply lookup_insert_Some in H1 as [[<- <-] | [Hne1 H1]];
          apply lookup_insert_Some in H2 as [[<- Heq] | [Hne2 H2]]; try done.
        -- apply Hrange in H2. lia.
        -- apply Hrange in H1. lia.
        -- by eapply Hinj.
      * intros k T' Hk Hnew. destruct (decide (k < length Ts)%nat) as [Hlt | Hge].
        -- rewrite lookup_app_l in Hk by done.
           rewrite take_app_le in Hnew |- * by lia.
           rewrite lookup_insert_ne; [by apply Hfirst |].
           intros <-. apply HTnew. apply elem_of_list_to_set.
           by eapply list_elem_of_lookup_2.
        -- rewrite lookup_app_r in Hk by lia.
           destruct (k - length Ts)%nat eqn:Hk0; [| done].
           simpl in Hk. inversion Hk; subst T'.
           assert (k = length Ts) as -> by lia.
           rewrite take_app_length, lookup_insert_eq. by rewrite Hcount.
Qed.

Lemma first_query_of_NoDup (Ts : list string) (k : nat) (T : string) :
  NoDup Ts → Ts !! k = Some T → T ∉ take k Ts.
Proof.
  intros Hnodup Hk Hin. apply list_elem_of_lookup in Hin as [j Hj].
  apply lookup_take_Some in Hj as [Hj Hlt].
  pose proof (NoDup_lookup _ _ _ _ Hnodup Hj Hk). lia.
Qed.

(** C10. Type ids come from the hidden counter at the first call of
    [getComponentTypeId<T>()] for each type.  For every sequence [Ts] of
    queries from program start: every call returns; the first query of a
    type returns the number of distinct types queried before it; later
    queries of the type return the same id; different types have different
    ids; once a type has an id, a further call returns it and changes
    nothing; a type not yet queried would get the number of types queried so
    far; pairwise different types get exactly 0, 1, 2, ... in query order;
    [registerComponent] changes the statics exactly as one call of
    [getComponentTypeId] does; and for every [n] some program makes the
    counter hand out [n], whatever [MAX_COMPONENTS] is. *)
Theorem type_ids_by_first_query (Ts : list string) :
  let ids := (query_all Ts ComponentManager.statics_init).1 in
  let st := (query_all Ts ComponentManager.statics_init).2 in
  length ids = length Ts ∧
  (∀ k T, Ts !! k = Some T → T ∉ take k Ts →
     ids !! k = Some (Z.of_nat (size (list_to_set (take k Ts) : gset string)))) ∧
  (∀ j k T, Ts !! j = Some T → Ts !! k = Some T → ids !! j = ids !! k) ∧
  (∀ j k T1 T2, Ts !! j = Some T1 → Ts !! k = Some T2 → T1 ≠ T2 → ids !! j ≠ ids !! k) ∧
  (∀ k T id, Ts !! k = Some T → ids !! k = Some id →
     ComponentManager.getComponentTypeId T st = (id, st)) ∧
  (∀ T, T ∉ Ts →
     (ComponentManager.getComponentTypeId T st).1
       = Z.of_nat (size (list_to_set Ts : gset string))) ∧
  (NoDup Ts → ids = seqZ 0 (Z.of_nat (length Ts))) ∧
  (∀ V T (cm cm' : ComponentManager.t V) st',
     ComponentManager.registerComponent T st cm = Ok (st', cm') →
     st' = (ComponentManager.getComponentTypeId T st).2) ∧
  (∀ n : nat, ∃ Ts' : list string,
     (query_all Ts' ComponentManager.statics_init).1 !! n = Some (Z.of_nat n)).
Proof.
  intros ids st.
  destruct (query_all_queried Ts) as (Hlen & Hrec & Hdom & Hcount & Hrange & Hinj & Hfirst).
  fold ids in Hlen, Hrec. fold st in Hrec, Hdom, Hcount, Hrange, Hinj, Hfirst.
  assert (Hfirst_id : ∀ k T, Ts !! k = Some T → T ∉ take k Ts →
     ids !! k = Some (Z.of_nat (size (list_to_set (take k Ts) : gset string)))).
  { intros k T Hk Hnew. destruct (Hrec k T Hk) as (id & Hid & HT).
    rewrite Hid, <- HT. by apply Hfirst. }
  split_and!; try done.
  - intros j k T Hj Hk.
    destruct (Hrec j T Hj) as (id1 & -> & H1), (Hrec k T Hk) as (id2 & -> & H2). congruence.
  - intros j k T1 T2 Hj Hk Hne Heq.
    destruct (Hrec j T1 Hj) as (id1 & Hid1 & H1), (Hrec k T2 Hk) as (id2 & Hid2 & H2).
    apply Hne. apply (Hinj T1 T2 id1); congruence.
  - intros k T id Hk Hid. apply getComponentTypeId_known.
    destruct (Hrec k T Hk) as (id' & Hid' & HT). congruence.
  - intros T HT. rewrite getComponentTypeId_fresh; [done |].
    apply not_elem_of_dom. rewrite Hdom. by rewrite elem_of_list_to_set.
  - intros Hnodup. apply list_eq. intros k.
    destruct (Ts !! k) as [T|] eqn:Hk.
    + rewrite (Hfirst_id k T Hk (first_query_of_NoDup Ts k T Hnodup Hk)).
      pose proof (lookup_lt_Some _ _ _ Hk) as Hlt.
      rewrite size_list_to_set by (eapply sublist_NoDup; [done | apply sublist_take]).
      rewrite length_take, lookup_seqZ_lt by lia. f_equal. lia.
    + apply lookup_ge_None in Hk.
      rewrite lookup_ge_None_2 by lia. symmetry. apply lookup_seqZ_ge. lia.
  - intros V T cm cm' st' Hreg. unfold ComponentManager.registerComponent in Hreg.
    destruct (ComponentManager.getComponentTypeId T st) as [id st1].
    inv_bind Hreg. by inversion Hreg.
  - intros n. exists (pretty <$> seq 0 (S n)).
    pose proof (query_all_queried (pretty <$> seq 0 (S n))) as (Hlen' & Hrec' & _ & _ & _ & _ & Hfirst').
    assert (Hnodup : NoDup (pretty <$> seq 0 (S n) : list string)).
    { apply NoDup_fmap_2; [apply _ | apply NoDup_seq]. }
    assert (Hn : (pretty <$> seq 0 (S n) : list string) !! n = Some (pretty n)).
    { rewrite list_lookup_fmap, lookup_seq_lt by lia. done. }
    destruct (Hrec' n _ Hn) as (id & Hid & HT).
    rewrite Hid, <- HT, (Hfirst' n _ Hn (first_query_of_NoDup _ _ _ Hnodup Hn)).
    rewrite size_list_to_set by (eapply sublist_NoDup; [done | apply sublist_take]).
    rewrite length_take, length_fmap, length_seq. f_equal. lia.
Qed.

Lemma type_ids_by_first_query_witness :
  (query_all ["Transform"; "Physic"; "Transform"; "Color"] ComponentManager.statics_init).1
    !! 3%nat = Some MAX_COMPONENTS.
Proof.
  destruct (type_ids_by_first_query ["Transform"; "Physic"; "Transform"; "Color"])
    as (_ & Hfirst & _).
  rewrite (Hfirst 3%nat "Color" eq_refl).
  - by vm_compute.
  - simpl. intros Hin. repeat (apply elem_of_cons in Hin as [Hin | Hin]; [done |]).
    by apply elem_of_nil in Hin.
Defined.

(** ** Invariants of reachable states *)

Lemma createNew_Ok em entity em' :
  EntityManager.createNew em = Ok (entity, em') →
  EntityManager.availableEntities em = entity :: EntityManager.availableEntities em' ∧
  EntityManager.signatures em' = EntityManager.signatures em.
Proof.
  unfold EntityManager.createNew. destruct (EntityManager.availableEntities em); [done |].
  intros H. by inversion H.
Qed.

Lemma destroy_Ok entity em em' :
  EntityManager.destroy entity em = Ok em' →
  EntityManager.availableEntities em' = EntityManager.availableEntities em ++ [entity] ∧
  length (EntityManager.signatures em') = length (EntityManager.signatures em).
Proof.
  unfold EntityManager.destroy. intros H. inv_bind H. inversion H; subst; simpl.
  by rewrite length_insert.
Qed.

Lemma setSignature_Ok entity signature em em' :
  EntityManager.setSignature entity signature em = Ok em' →
  EntityManager.availableEntities em' = EntityManager.availableEntities em ∧
  length (EntityManager.signatures em') = length (EntityManager.signatures em).
Proof.
  unfold EntityManager.setSignature. intros H. inv_bind H. inversion H; subst; simpl.
  by rewrite length_insert.
Qed.

Lemma set_entities_same_shape i entities sm sm' :
  same_shape sm sm' → same_shape sm (SystemManager.set_entities i entities sm').
Proof. intros [Hsys Hlen]. split; simpl; [done |]. by rewrite length_insert. Qed.

Lemma onEntitySignatureChange_Ok entity signature sm sm' :
  SystemManager.onEntitySignatureChange entity signature sm = Ok sm' → same_shape sm sm'.
Proof.
  apply (for_loop_preserves (same_shape sm)); [done |].
  intros i s1 s2 _ Hshape Hbody.
  unfold SystemManager.onEntitySignatureChange_body in Hbody.
  inv_bind Hbody. case_decide.
  - inv_bind Hbody. case_decide; inversion Hbody; subst; [done |].
    by apply set_entities_same_shape.
  - inv_bind Hbody. inversion Hbody; subst. by apply set_entities_same_shape.
Qed.

Lemma onEntityDestroy_Ok entity sm sm' :
  SystemManager.onEntityDestroy entity sm = Ok sm' → same_shape sm sm'.
Proof.
  apply (for_loop_preserves (same_shape sm)); [done |].
  intros i s1 s2 _ Hshape Hbody.
  unfold SystemManager.onEntityDestroy_body in Hbody.
  inv_bind Hbody. inversion Hbody; subst. by apply set_entities_same_shape.
Qed.

Lemma onEntityDestroy_returns entity sm :
  length (SystemManager.entitiesVec sm) = length (SystemManager.systems sm) →
  ∃ sm', SystemManager.onEntityDestroy entity sm = Ok sm'.
Proof.
  intros Hlen.
  destruct (for_loop_invariant (same_shape sm) (length (SystemManager.systems sm))
              (SystemManager.onEntityDestroy_body entity) sm)
    as (sm' & Hloop & _); [done | | by exists sm'].
  intros i s1 Hi [Hsys Hvec].
  unfold SystemManager.onEntityDestroy_body.
  destruct (at_index_in_range (SystemManager.entitiesVec s1) (Z.of_nat i)) as [entities ->];
    [rewrite Hvec, Hlen; lia |].
  simpl. eexists; split; [done |]. by apply set_entities_same_shape.
Qed.

(** The calls of the component manager keep the size of the array, and the
    statics they leave are those of one [getComponentTypeId] call. *)
Lemma getComponentPool_Ok {V} T st (cm : ComponentManager.t V) r st' :
  ComponentManager.getComponentPool T st cm = Ok (r, st') →
  st' = (ComponentManager.getComponentTypeId T st).2.
Proof.
  unfold ComponentManager.getComponentPool.
  destruct (ComponentManager.getComponentTypeId T st) as [id st1]. intros H.
  inv_bind H. destruct a as [[T' p]|]; [case_decide |]; by inversion H.
Qed.

Lemma length_store {V} slot T p (cm : ComponentManager.t V) :
  length (ComponentManager.componentPoolArray (ComponentManager.store slot T p cm))
  = length (ComponentManager.componentPoolArray cm).
Proof. unfold ComponentManager.store. simpl. by rewrite length_insert. Qed.

Lemma registerComponent_Ok {V} T st (cm : ComponentManager.t V) st' cm' :
  ComponentManager.registerComponent T st cm = Ok (st', cm') →
  st' = (ComponentManager.getComponentTypeId T st).2 ∧
  length (ComponentManager.componentPoolArray cm')
  = length (ComponentManager.componentPoolArray cm).
Proof.
  unfold ComponentManager.registerComponent.
  destruct (ComponentManager.getComponentTypeId T st) as [id st1]. intros H.
  inv_bind H. inversion H; subst; simpl. by rewrite length_insert.
Qed.

Lemma add_Ok {V} T entity (component : V) st cm st' cm' :
  ComponentManager.add T entity component st cm = Ok (st', cm') →
  st' = (ComponentManager.getComponentTypeId T st).2 ∧
  length (ComponentManager.componentPoolArray cm')
  = length (ComponentManager.componentPoolArray cm).
Proof.
  unfold ComponentManager.add. intros H. inv_bind H. destruct a as [r st1].
  apply getComponentPool_Ok in Ha as ->.
  destruct r as [[slot p]|]; inversion H; subst; [by rewrite length_store | done].
Qed.

Lemma remove_Ok {V} T entity st (cm : ComponentManager.t V) st' cm' :
  ComponentManager.remove T entity st cm = Ok (st', cm') →
  st' = (ComponentManager.getComponentTypeId T st).2 ∧
  length (ComponentManager.componentPoolArray cm')
  = length (ComponentManager.componentPoolArray cm).
Proof.
  unfold ComponentManager.remove. intros H. inv_bind H. destruct a as [r st1].
  apply getComponentPool_Ok in Ha as ->.
  destruct r as [[slot p]|]; inversion H; subst; [by rewrite length_store | done].
Qed.

Lemma get_Ok {V} T entity st (cm : ComponentManager.t V) ptr st' cm' :
  ComponentManager.get T entity st cm = Ok (ptr, st', cm') →
  st' = (ComponentManager.getComponentTypeId T st).2 ∧
  length (ComponentManager.componentPoolArray cm')
  = length (ComponentManager.componentPoolArray cm).
Proof.
  unfold ComponentManager.get. intros H. inv_bind H. destruct a as [r st1].
  apply getComponentPool_Ok in Ha as ->.
  destruct r as [[slot p]|]; [| done]. inv_bind H. destruct a as [ptr' p'].
  inversion H; subst. by rewrite length_store.
Qed.

Lemma getComponentTypeId_nonneg T st :
  0 ≤ ComponentManager.counter st →
  (∀ T' id, ComponentManager.type_id st !! T' = Some id → 0 ≤ id) →
  let st' := (ComponentManager.getComponentTypeId T st).2 in
  0 ≤ ComponentManager.counter st' ∧
  (∀ T' id, ComponentManager.type_id st' !! T' = Some id → 0 ≤ id).
Proof.
  intros Hcount Hids. unfold ComponentManager.getComponentTypeId.
  destruct (ComponentManager.type_id st !! T) eqn:HT; simpl; [done |].
  split; [lia |]. intros T' id H.
  apply lookup_insert_Some in H as [[_ <-] | [_ H]]; [done | by eapply Hids].
Qed.

Lemma filter_ne_absent {A} `{EqDecision A} (l : list A) (x : A) :
  x ∉ l → filter (λ y, y ≠ x) l = l.
Proof.
  induction l as [|y l IH]; [done |]. intros Hx.
  apply not_elem_of_cons in Hx as [Hne Hx].
  rewrite filter_cons_True by done. by rewrite IH.
Qed.

Lemma live_without {A} `{EqDecision A} (l : list A) (x : A) :
  NoDup l → x ∈ l → l ≡ₚ x :: filter (λ y, y ≠ x) l.
Proof.
  intros Hnodup Hin. induction Hnodup as [|y l Hy Hnodup IH]; [by apply elem_of_nil in Hin |].
  apply elem_of_cons in Hin as [-> | Hin].
  - rewrite filter_cons_False by naive_solver. by rewrite filter_ne_absent.
  - rewrite filter_cons_True by (intros ->; done).
    rewrite (IH Hin) at 1. apply Permutation_swap.
Qed.

Lemma reachable_consistent {V} (s : ECS.state V) (live : list Entity) :
  ECS.reachable s live → consistent s live.
Proof.
  induction 1 as [ | s live T s' _ IH Hcall | s live system _ IH | s live T _ IH
                   | s live entity s' _ IH Hcall | s live entity s' _ IH Hlive Hcall
                   | s live T entity component s' _ IH Hcall
                   | s live T entity s' _ IH Hcall
                   | s live T entity ptr s' _ IH Hcall ];
    try destruct IH as (Hperm & Hsig & Harr & Hvec & Hcount & Hids).
  - unfold consistent. cbn -[MAX_ENTITIES MAX_COMPONENTS]. rewrite app_nil_r, !length_replicate. split_and!; try done.
  - unfold ECS.registerComponent in Hcall. inv_bind Hcall. destruct a as [st cm].
    apply registerComponent_Ok in Ha as [-> Hlen]. inversion Hcall; subst s'; clear Hcall.
    destruct (getComponentTypeId_nonneg T (ECS.statics s) Hcount Hids) as [Hcount' Hids'].
    unfold consistent. simpl. rewrite Hlen. by split_and!.
  - unfold consistent. simpl. rewrite !length_app, Hvec. by split_and!.
  - unfold ECS.getComponentTypeId.
    destruct (getComponentTypeId_nonneg T (ECS.statics s) Hcount Hids) as [Hcount' Hids'].
    destruct (ComponentManager.getComponentTypeId T (ECS.statics s)) as [id st].
    unfold consistent. simpl. by split_and!.
  - unfold ECS.newEntity in Hcall. inv_bind Hcall. destruct a as [e em].
    apply createNew_Ok in Ha as [Hqueue Hsigs]. inversion Hcall; subst; clear Hcall.
    unfold consistent. simpl. rewrite Hsigs. split_and!; try done.
    rewrite <- Hperm, Hqueue. simpl. by rewrite Permutation_middle.
  - unfold ECS.destroyEntity in Hcall.
    apply bind_Ok in Hcall as (em & Hem & Hcall).
    apply bind_Ok in Hcall as (sm & Hsm & Hcall).
    apply destroy_Ok in Hem as [Hqueue Hsigs]. apply onEntityDestroy_Ok in Hsm as [Hsys Hlen].
    inversion Hcall; subst s'; clear Hcall.
    unfold consistent. simpl. rewrite Hsigs, Hqueue, Hsys, Hlen, length_fmap.
    split_and!; try done.
    rewrite <- Hperm, <- app_assoc. f_equiv. simpl.
    symmetry. apply live_without; [| done].
    assert (Hnodup : NoDup (EntityManager.availableEntities (ECS.entityManager (ECS.ecs s)) ++ live))
      by (rewrite Hperm; apply NoDup_seqZ).
    by apply NoDup_app in Hnodup as (_ & _ & ?).
  - unfold ECS.assignComponent in Hcall.
    apply bind_Ok in Hcall as ([st1 cm] & Hcm & Hcall).
    apply add_Ok in Hcm as [-> Hlen].
    apply bind_Ok in Hcall as (signature & _ & Hcall).
    destruct (getComponentTypeId_nonneg T (ECS.statics s) Hcount Hids) as [Hcount1 Hids1].
    destruct (getComponentTypeId_nonneg T _ Hcount1 Hids1) as [Hcount2 Hids2].
    destruct (ComponentManager.getComponentTypeId T _) as [id st2] in Hcall, Hcount2, Hids2.
    apply bind_Ok in Hcall as (signature' & _ & Hcall).
    apply bind_Ok in Hcall as (em & Hem & Hcall).
    apply bind_Ok in Hcall as (sm & Hsm & Hcall).
    apply setSignature_Ok in Hem as [Hqueue Hsigs].
    apply onEntitySignatureChange_Ok in Hsm as [Hsys Hvec'].
    inversion Hcall; subst s'; clear Hcall.
    unfold consistent. simpl. rewrite Hqueue, Hsigs, Hlen, Hsys, Hvec'. by split_and!.
  - unfold ECS.removeComponent in Hcall.
    apply bind_Ok in Hcall as ([st1 cm] & Hcm & Hcall).
    apply remove_Ok in Hcm as [-> Hlen].
    apply bind_Ok in Hcall as (signature & _ & Hcall).
    destruct (getComponentTypeId_nonneg T (ECS.statics s) Hcount Hids) as [Hcount1 Hids1].
    destruct (getComponentTypeId_nonneg T _ Hcount1 Hids1) as [Hcount2 Hids2].
    destruct (ComponentManager.getComponentTypeId T _) as [id st2] in Hcall, Hcount2, Hids2.
    apply bind_Ok in Hcall as (signature' & _ & Hcall).
    apply bind_Ok in Hcall as (em & Hem & Hcall).
    apply bind_Ok in Hcall as (sm & Hsm & Hcall).
    apply setSignature_Ok in Hem as [Hqueue Hsigs].
    apply onEntitySignatureChange_Ok in Hsm as [Hsys Hvec'].
    inversion Hcall; subst s'; clear Hcall.
    unfold consistent. simpl. rewrite Hqueue, Hsigs, Hlen, Hsys, Hvec'. by split_and!.
  - unfold ECS.getComponent in Hcall. inv_bind Hcall. destruct a as [[ptr' st] cm].
    apply get_Ok in Ha as [-> Hlen]. inversion Hcall; subst; clear Hcall.
    destruct (getComponentTypeId_nonneg T (ECS.statics s) Hcount Hids) as [Hcount1 Hids1].
    unfold consistent. simpl. rewrite Hlen. by split_and!.
Qed.

(** ** Creating and destroying entities *)

Lemma destroyEntity_returns {V} (s : ECS.state V) (live : list Entity) (entity : Entity) :
  consistent s live → 0 ≤ entity < MAX_ENTITIES →
  ∃ s', ECS.destroyEntity entity s = Ok s' ∧
        EntityManager.availableEntities (ECS.entityManager (ECS.ecs s'))
        = EntityManager.availableEntities (ECS.entityManager (ECS.ecs s)) ++ [entity].
Proof.
  intros (_ & Hsig & _ & Hvec & _) Hrange.
  unfold ECS.destroyEntity, EntityManager.destroy.
  destruct (at_index_in_range (EntityManager.signatures (ECS.entityManager (ECS.ecs s))) entity)
    as [signature ->]; [rewrite Hsig; lia |].
  destruct (onEntityDestroy_returns entity _ Hvec) as [sm ->].
  simpl. eexists. by split.
Qed.

(** C7. In every reachable state the live entities are pairwise distinct
    ids of [0 .. MAX_ENTITIES - 1]; [newEntity] throws
    [ECSException("Out of available entities")] exactly when [MAX_ENTITIES]
    entities are live, that is when all ids are, and returns otherwise; an id
    it returns lies in [0 .. MAX_ENTITIES - 1] and was not live; and after
    [destroyEntity] of a live entity, which returns, the next [newEntity]
    returns an id. *)
Theorem newEntity_exhaustion {V} (s : ECS.state V) (live : list Entity) :
  ECS.reachable s live →
  NoDup live ∧
  (∀ e, e ∈ live → 0 ≤ e < MAX_ENTITIES) ∧
  (ECS.newEntity s = Throw (ECSException "Out of available entities")
     ↔ length live = Z.to_nat MAX_ENTITIES) ∧
  (length live ≠ Z.to_nat MAX_ENTITIES → ∃ e s', ECS.newEntity s = Ok (e, s')) ∧
  (∀ e s', ECS.newEntity s = Ok (e, s') → 0 ≤ e < MAX_ENTITIES ∧ e ∉ live) ∧
  (∀ e, e ∈ live →
     ∃ s1 e' s2, ECS.destroyEntity e s = Ok s1 ∧ ECS.newEntity s1 = Ok (e', s2)).
Proof.
  intros Hreach. pose proof (reachable_consistent s live Hreach) as Hcons.
  pose proof Hcons as (Hperm & _).
  assert (Hnodup : NoDup (EntityManager.availableEntities (ECS.entityManager (ECS.ecs s)) ++ live))
    by (rewrite Hperm; apply NoDup_seqZ).
  apply NoDup_app in Hnodup as (_ & Hdisjoint & Hnodup).
  assert (Hrange : ∀ e, e ∈ EntityManager.availableEntities (ECS.entityManager (ECS.ecs s)) ++ live →
                        0 ≤ e < MAX_ENTITIES).
  { intros e He. rewrite Hperm in He. apply elem_of_seqZ in He. lia. }
  pose proof (Permutation_length Hperm) as Hlen. rewrite length_app, length_seqZ in Hlen.
  split_and!.
  - done.
  - intros e He. apply Hrange. apply elem_of_app. by right.
  - unfold ECS.newEntity, EntityManager.createNew.
    destruct (EntityManager.availableEntities _) as [|e queue]; simpl in *.
    + split; [intros _; lia | done].
    + split; [done | lia].
  - intros Hfree. unfold ECS.newEntity, EntityManager.createNew.
    destruct (EntityManager.availableEntities _) as [|e queue]; simpl in *; [lia |].
    by eexists _, _.
  - intros e s' Hnew. unfold ECS.newEntity in Hnew.
    apply bind_Ok in Hnew as ([e' em] & Hcreate & Hnew).
    apply createNew_Ok in Hcreate as [Hqueue _]. inversion Hnew; subst e' s'; clear Hnew.
    split.
    + apply Hrange. rewrite Hqueue. apply list_elem_of_here.
    + apply Hdisjoint. rewrite Hqueue. apply list_elem_of_here.
  - intros e He.
    destruct (destroyEntity_returns s live e Hcons) as (s1 & Hdestroy & Hqueue).
    { apply Hrange. apply elem_of_app. by right. }
    exists s1. unfold ECS.newEntity, EntityManager.createNew. rewrite Hqueue.
    destruct (EntityManager.availableEntities (ECS.entityManager (ECS.ecs s)));
      simpl; by eexists _, _.
Qed.

Lemma newEntity_exhaustion_witness :
  (∃ s : ECS.state Z,
     run [NewEntity; NewEntity] start = Ok (s, [1; 0]) ∧
     ∃ s1 e' s2, ECS.destroyEntity 0 s = Ok s1 ∧ ECS.newEntity s1 = Ok (e', s2)) ∧
  (∃ (s : ECS.state Z) live,
     run (replicate 512 NewEntity) start = Ok (s, live) ∧
     ECS.newEntity s = Throw (ECSException "Out of available entities")).
Proof.
  split.
  - run_returns s live Hrun.
    observe Hrun (λ r : outcome (ECS.state Z * list Z),
      match r with Ok (_, l) => l | _ => [] end).
    subst live. exists s. split; [reflexivity |].
    destruct (newEntity_exhaustion s [1; 0] (run_start_reachable _ _ _ Hrun))
      as (_ & _ & _ & _ & _ & Hdestroy).
    apply Hdestroy. apply list_elem_of_further, list_elem_of_here.
  - run_returns s live Hrun.
    observe Hrun (λ r : outcome (ECS.state Z * list Z),
      match r with Ok (_, l) => length l | _ => 0%nat end).
    exists s, live. split; [reflexivity |].
    destruct (newEntity_exhaustion s live (run_start_reachable _ _ _ Hrun))
      as (_ & _ & Hfull & _).
    apply Hfull. rewrite Hobs. reflexivity.
Defined.


(** ** Assigning and reading a component *)

Lemma pool_of_Some {V} (T : string) (s : ECS.state V) (p : ComponentPool.t V) :
  ECS.pool_of T s = Some p ↔
  ∃ id, ComponentManager.type_id (ECS.statics s) !! T = Some id ∧
        ComponentManager.componentPoolArray (ECS.componentManager (ECS.ecs s)) !! Z.to_nat id
        = Some (Some (T, p)).
Proof.
  unfold ECS.pool_of. split.
  - intros H. destruct (ComponentManager.type_id _ !! T) as [id|]; simpl in H; [| discriminate].
    destruct (_ !! Z.to_nat id) as [[[T' p']|]|] eqn:Hslot; simpl in H; try discriminate.
    case_decide; [| discriminate]. inversion H; subst. by exists id.
  - intros (id & -> & Hslot). simpl. rewrite Hslot. simpl. by rewrite decide_True.
Qed.

Lemma getComponentPool_registered {V} (T : string) (id : Z) st (cm : ComponentManager.t V) p :
  ComponentManager.type_id st !! T = Some id → 0 ≤ id →
  ComponentManager.componentPoolArray cm !! Z.to_nat id = Some (Some (T, p)) →
  ComponentManager.getComponentPool T st cm = Ok (Some (Z.to_nat id, p), st).
Proof.
  intros Hid Hpos Hslot. unfold ComponentManager.getComponentPool.
  rewrite (getComponentTypeId_known T id st Hid).
  rewrite (proj2 (at_index_Ok _ id _) (conj Hpos Hslot)). simpl. by rewrite decide_True.
Qed.

(** Reading an entity right after adding it finds the value just pushed. *)
Lemma get_add {T} (entity : Entity) (component : T) (p : ComponentPool.t T) :
  ComponentPool.get entity (ComponentPool.add entity component p)
  = Ok (element_at (length (ComponentPool.components p)),
        ComponentPool.add entity component p) ∧
  ComponentPool.load (element_at (length (ComponentPool.components p)))
    (ComponentPool.add entity component p) = Some component.
Proof.
  split.
  - rewrite get_is_get_try. unfold ComponentPool.get_try, ComponentPool.add, unordered_map.subscript.
    cbn [ComponentPool.components ComponentPool.entityToIndex ComponentPool.indexToEntity].
    rewrite lookup_insert_eq, length_app. simpl.
    replace (Z.of_nat (length (ComponentPool.components p) + 1) - 1)
      with (Z.of_nat (length (ComponentPool.components p))) by lia.
    rewrite (proj2 (at_index_Ok _ _ component)).
    + simpl. by rewrite Nat2Z.id.
    + split; [lia |]. rewrite Nat2Z.id. by apply list_lookup_middle.
  - simpl. by apply list_lookup_middle.
Qed.

(** C8. In every reachable state, for a registered type [T], a live entity
    and any value: when [assignComponent<T>] has returned, the
    [getComponent<T>] that follows returns a pointer that is not null, and
    the value read through it is the one assigned.  (Whether the entity
    already had a [T] plays no role: [add] always maps the entity to the
    position it has just pushed.  The call is taken as returned because its
    last step calls [getSignature()] of every registered system, which is
    application code and may throw.) *)
Theorem assign_then_get {V} (s s1 : ECS.state V) (live : list Entity)
    (T : string) (entity : Entity) (component : V) :
  ECS.reachable s live → ECS.registered T s → entity ∈ live →
  ECS.assignComponent T entity component s = Ok s1 →
  ∃ ptr s2,
    ECS.getComponent T entity s1 = Ok (ptr, s2) ∧
    ptr ≠ nullptr ∧
    ECS.load T ptr s2 = Some component.
Proof.
  intros Hreach [p Hpool] Hlive Hassign.
  pose proof (reachable_consistent s live Hreach) as (Hperm & Hsigs & Harr & Hvec & _ & Hids).
  apply pool_of_Some in Hpool as (id & Hid & Hslot).
  pose proof (Hids T id Hid) as Hpos.
  pose proof (lookup_lt_Some _ _ _ Hslot) as Hslot_lt.
  assert (Hentity : 0 ≤ entity < MAX_ENTITIES).
  { assert (He : entity ∈ EntityManager.availableEntities (ECS.entityManager (ECS.ecs s)) ++ live)
      by (apply elem_of_app; by right).
    rewrite Hperm in He. apply elem_of_seqZ in He. lia. }
  (* assignComponent *)
  unfold ECS.assignComponent, ComponentManager.add in Hassign.
  rewrite (getComponentPool_registered T id _ _ p Hid Hpos Hslot) in Hassign. simpl in Hassign.
  unfold EntityManager.getSignature, EntityManager.setSignature in Hassign.
  destruct (at_index_in_range (EntityManager.signatures (ECS.entityManager (ECS.ecs s))) entity)
    as [signature Hsignature]; [rewrite Hsigs; lia |].
  rewrite Hsignature in Hassign. simpl in Hassign.
  rewrite (getComponentTypeId_known T id _ Hid) in Hassign.
  unfold bitset.set in Hassign. rewrite decide_True in Hassign by lia. simpl in Hassign.
  destruct (SystemManager.onEntitySignatureChange entity (Z.setbit signature id)
              (ECS.systemManager (ECS.ecs s))) as [sm| |]; [| done | done].
  simpl in Hassign. injection Hassign as <-.
  (* getComponent *)
  unfold ECS.getComponent, ComponentManager.get. simpl.
  rewrite (getComponentPool_registered T id _ _ (ComponentPool.add entity component p) Hid Hpos)
    by (simpl; by rewrite list_lookup_insert_eq).
  simpl. destruct (get_add entity component p) as [-> Hload]. simpl.
  eexists _, _. split; [reflexivity |]. split; [done |].
  (* the value read through the pointer *)
  unfold ECS.load. rewrite (proj2 (pool_of_Some T _ (ComponentPool.add entity component p))); [done |].
  exists id. simpl. split; [done |].
  rewrite list_lookup_insert_eq; [done |]. by rewrite length_insert.
Qed.

Lemma registerComponent_registered {V} (T : string) (s s' : ECS.state V) :
  ECS.registerComponent T s = Ok s' → ECS.registered T s'.
Proof.
  unfold ECS.registerComponent, ComponentManager.registerComponent. intros H.
  apply bind_Ok in H as ([st cm] & Hreg & H). inversion H; subst s'; clear H.
  destruct (ComponentManager.getComponentTypeId T (ECS.statics s)) as [id st1] eqn:Hid.
  apply bind_Ok in Hreg as (slot & Hslot & Hreg). inversion Hreg; subst st cm; clear Hreg.
  apply at_index_Ok in Hslot as [Hpos Hslot].
  exists ComponentPool.new. apply pool_of_Some. exists id. simpl. split.
  - unfold ComponentManager.getComponentTypeId in Hid.
    destruct (ComponentManager.type_id (ECS.statics s) !! T) as [id'|] eqn:HT.
    + by inversion Hid; subst.
    + inversion Hid; subst. simpl. by rewrite lookup_insert_eq.
  - apply list_lookup_insert_eq. by eapply lookup_lt_Some.
Qed.


Lemma assign_then_get_witness :
  ∃ s s1 : ECS.state Z,
    run setup start = Ok (s, [1; 0]) ∧
    ECS.assignComponent "Transform" 1 42 s = Ok s1 ∧
    ∃ ptr s2,
      ECS.getComponent "Transform" 1 s1 = Ok (ptr, s2) ∧
      ptr ≠ nullptr ∧
      ECS.load "Transform" ptr s2 = Some 42.
Proof.
  run_returns s live Hrun.
  observe Hrun (λ r : outcome (ECS.state Z * list Z),
    match r with Ok (_, l) => l | _ => [] end).
  observe Hrun (λ r : outcome (ECS.state Z * list Z),
    match r with
    | Ok (s, _) => ComponentPool.components <$> ECS.pool_of "Transform" s
    | _ => None
    end).
  observe Hrun (λ r : outcome (ECS.state Z * list Z),
    match r with
    | Ok (s, _) =>
        match ECS.assignComponent "Transform" 1 42 s with Ok _ => true | _ => false end
    | _ => false
    end).
  subst live.
  destruct (ECS.assignComponent "Transform" 1 42 s) as [s1| |] eqn:Hassign;
    [| discriminate | discriminate].
  exists s, s1. split; [reflexivity |]. split; [exact Hassign |].
  apply (assign_then_get s s1 [1; 0] "Transform" 1 42).
  - exact (run_start_reachable _ _ _ Hrun).
  - unfold ECS.registered. destruct (ECS.pool_of "Transform" s); [by eexists | discriminate].
  - apply list_elem_of_here.
  - exact Hassign.
Defined.

(** * Further properties

    Properties of the code beyond the numbered claims of the first part:
    the parts of the header the claims do not reach, and the two system
    classes and [initECS] of [src/main.cpp]. *)

(** ** More on swapRemove *)

Lemma swapRemove_last {T} (l : list T) (x : T) :
  ECSUtils.swapRemove (l ++ [x]) (Z.of_nat (length l)) = l.
Proof.
  unfold ECSUtils.swapRemove. rewrite length_app. simpl.
  rewrite decide_False by lia. rewrite decide_False by lia.
  unfold ECSUtils.pop_back. case_decide.
  - unfold ECSUtils.iter_swap. rewrite Nat2Z.id.
    replace (length l + 1 - 1)%nat with (length l) by lia.
    rewrite list_lookup_middle by done.
    rewrite (list_insert_id (l ++ [x])) by (by apply list_lookup_middle).
    rewrite (list_insert_id (l ++ [x])) by (by apply list_lookup_middle).
    rewrite length_app. simpl.
    replace (length l + 1 - 1)%nat with (length l) by lia.
    by rewrite take_app_length.
  - rewrite length_app. simpl.
    replace (length l + 1 - 1)%nat with (length l) by lia.
    by rewrite take_app_length.
Qed.

Lemma swapRemove_inner {T} (l1 l2 : list T) (x y : T) :
  ECSUtils.swapRemove (l1 ++ x :: l2 ++ [y]) (Z.of_nat (length l1)) = l1 ++ y :: l2.
Proof.
  unfold ECSUtils.swapRemove. rewrite !length_app. simpl. rewrite length_app. simpl.
  rewrite decide_False by lia. rewrite decide_False by lia.
  rewrite decide_True by lia.
  unfold ECSUtils.iter_swap, ECSUtils.pop_back. rewrite Nat2Z.id.
  rewrite list_lookup_middle by done.
  replace (length l1 + S (length l2 + 1) - 1)%nat with (length (l1 ++ x :: l2)) 
    by (rewrite length_app; simpl; lia).
  replace (l1 ++ x :: l2 ++ [y]) with ((l1 ++ x :: l2) ++ [y]) by (by rewrite <- app_assoc).
  rewrite list_lookup_middle by done.
  rewrite insert_app_r_alt by lia. rewrite Nat.sub_diag. simpl.
  rewrite insert_app_l by (rewrite length_app; simpl; lia).
  rewrite insert_app_r_alt by lia. rewrite Nat.sub_diag. simpl.
  rewrite !length_app. simpl.
  replace (length l1 + S (length l2) + 1 - 1)%nat with (length (l1 ++ y :: l2))
    by (rewrite length_app; simpl; lia).
  by rewrite take_app_length.
Qed.

(** Every index inside the vector splits it in one of the two shapes. *)
Lemma in_range_shape {T} (vec : list T) (i : nat) (x : T) :
  vec !! i = Some x →
  (∃ l, vec = l ++ [x] ∧ length l = i) ∨
  (∃ l1 l2 y, vec = l1 ++ x :: l2 ++ [y] ∧ length l1 = i).
Proof.
  intros Hx. pose proof (lookup_lt_Some _ _ _ Hx) as Hlt.
  pose proof (take_drop_middle _ _ _ Hx) as Hsplit.
  destruct (drop (S i) vec) as [|z l2] eqn:Hdrop using rev_ind.
  - left. exists (take i vec). split; [done |]. rewrite length_take. lia.
  - right. exists (take i vec), l2, z. split; [done |]. rewrite length_take. lia.
Qed.

Lemma swapRemove_Permutation {T} (vec : list T) (index : Z) (x : T) :
  0 ≤ index → vec !! Z.to_nat index = Some x →
  vec ≡ₚ x :: ECSUtils.swapRemove vec index.
Proof.
  intros Hpos Hx. replace index with (Z.of_nat (Z.to_nat index)) by lia.
  destruct (in_range_shape vec _ x Hx) as [(l & -> & <-) | (l1 & l2 & y & -> & <-)].
  - rewrite swapRemove_last. by rewrite Permutation_app_comm.
  - rewrite swapRemove_inner.
    rewrite <- (Permutation_middle l1 (l2 ++ [y]) x). do 2 f_equiv.
    by rewrite Permutation_app_comm.
Qed.

(** X1. [swapRemove] at a position inside the vector removes exactly the
    element at that position: the vector is a permutation of that element
    followed by the result.  On a vector without duplicates the result has
    none and no longer holds the element. *)
Theorem swapRemove_removes_one {T} (vec : list T) (index : Z) (x : T) :
  0 ≤ index → vec !! Z.to_nat index = Some x →
  vec ≡ₚ x :: ECSUtils.swapRemove vec index ∧
  (NoDup vec →
   NoDup (ECSUtils.swapRemove vec index) ∧ x ∉ ECSUtils.swapRemove vec index).
Proof.
  intros Hpos Hx. pose proof (swapRemove_Permutation vec index x Hpos Hx) as Hperm.
  split; [done |]. intros Hnodup. rewrite Hperm in Hnodup.
  by apply NoDup_cons in Hnodup as [? ?].
Qed.

(** ** More on component pools *)

Lemma subscript_Some (m : gmap Z Z) (k v : Z) :
  m !! k = Some v → unordered_map.subscript m k = (v, m).
Proof. intros H. unfold unordered_map.subscript. by rewrite H. Qed.

Lemma subscript_None (m : gmap Z Z) (k : Z) :
  m !! k = None → unordered_map.subscript m k = (0, <[k:=0]> m).
Proof. intros H. unfold unordered_map.subscript. by rewrite H. Qed.

Lemma swapRemove_lookup {T} (vec : list T) (index : Z) (i : nat) :
  0 ≤ index < Z.of_nat (length vec) → (i < length vec - 1)%nat →
  ECSUtils.swapRemove vec index !! i =
  if decide (i = Z.to_nat index) then last vec else vec !! i.
Proof.
  intros Hidx Hi. destruct (lookup_lt_is_Some_2 vec (Z.to_nat index)) as [x Hx]; [lia |].
  destruct (in_range_shape vec _ x Hx) as [(l & -> & Hl) | (l1 & l2 & y & -> & Hl)].
  - rewrite length_app in Hi. simpl in Hi.
    replace index with (Z.of_nat (length l)) by lia. rewrite swapRemove_last, Nat2Z.id.
    rewrite decide_False by lia. rewrite lookup_app_l by lia. done.
  - replace index with (Z.of_nat (length l1)) by lia. rewrite swapRemove_inner, Nat2Z.id.
    replace (l1 ++ x :: l2 ++ [y]) with ((l1 ++ x :: l2) ++ [y]) by (by rewrite <- app_assoc).
    rewrite last_snoc. case_decide as Heq.
    + subst i. by rewrite list_lookup_middle.
    + rewrite length_app in Hi. simpl in Hi. rewrite length_app in Hi. simpl in Hi.
      rewrite (lookup_app_l (l1 ++ x :: l2)) by (rewrite length_app; simpl; lia).
      destruct (decide (i < length l1)%nat).
      * by rewrite !lookup_app_l by lia.
      * rewrite !lookup_app_r by lia.
        destruct (i - length l1)%nat eqn:Hk; [lia | done].
Qed.

(** X2. [ComponentPool::get], case by case.  An entity recorded at a position
    inside the vector gets the address of that position and the pool is
    unchanged; an entity recorded at a position outside the vector makes the
    call undefined; an entity without entry gets position 0 recorded for it
    and the address of the first component when the vector is not empty, and
    makes the call undefined when it is empty. *)
Theorem get_cases {T} (entity : Entity) (p : ComponentPool.t T) :
  (∀ i, ComponentPool.entityToIndex p !! entity = Some i →
        0 ≤ i < Z.of_nat (length (ComponentPool.components p)) →
        ComponentPool.get entity p = Ok (element_at (Z.to_nat i), p)) ∧
  (∀ i, ComponentPool.entityToIndex p !! entity = Some i →
        ¬ 0 ≤ i < Z.of_nat (length (ComponentPool.components p)) →
        ComponentPool.get entity p = Undefined) ∧
  (ComponentPool.entityToIndex p !! entity = None →
   ComponentPool.components p ≠ [] →
   ComponentPool.get entity p =
     Ok (element_at 0,
         {| ComponentPool.components := ComponentPool.components p;
            ComponentPool.entityToIndex := <[entity := 0]> (ComponentPool.entityToIndex p);
            ComponentPool.indexToEntity := ComponentPool.indexToEntity p |})) ∧
  (ComponentPool.entityToIndex p !! entity = None →
   ComponentPool.components p = [] →
   ComponentPool.get entity p = Undefined).
Proof.
  rewrite get_is_get_try. unfold ComponentPool.get_try. split_and!.
  - intros i Hi Hrange. rewrite (subscript_Some _ _ _ Hi).
    destruct (at_index_in_range (ComponentPool.components p) i Hrange) as [x ->].
    simpl. by destruct p.
  - intros i Hi Hrange. rewrite (subscript_Some _ _ _ Hi).
    unfold at_index. case_decide; [| done].
    rewrite lookup_ge_None_2; [done | lia].
  - intros Hnone Hne. rewrite (subscript_None _ _ Hnone).
    destruct (ComponentPool.components p) as [|x l] eqn:Hc; [done |]. by simpl.
  - intros Hnone Hempty. rewrite (subscript_None _ _ Hnone). by rewrite Hempty.
Qed.

(** X3. [remove] undoes [add]: for an entity without entry, and with no stale
    entry of [indexToEntity] at the position the new value takes, removing
    the entity right after adding it gives back the pool. *)
Theorem remove_add {T} (entity : Entity) (component : T) (p : ComponentPool.t T) :
  ComponentPool.entityToIndex p !! entity = None →
  ComponentPool.indexToEntity p !! Z.of_nat (length (ComponentPool.components p)) = None →
  ComponentPool.remove entity (ComponentPool.add entity component p) = p.
Proof.
  intros He Hi. destruct p as [cs e2i i2e]. simpl in *.
  unfold ComponentPool.remove, ComponentPool.add. simpl.
  rewrite length_app. simpl.
  replace (Z.of_nat (length cs + 1) - 1) with (Z.of_nat (length cs)) by lia.
  rewrite (subscript_Some _ _ _ (lookup_insert_eq e2i entity _)).
  rewrite (subscript_Some _ _ _ (lookup_insert_eq i2e _ entity)).
  rewrite swapRemove_last, !insert_insert_eq, !delete_insert_eq.
  by rewrite !delete_id.
Qed.

Lemma index_maps_inverse_add {T} (entity : Entity) (component : T) (p : ComponentPool.t T) :
  index_maps_inverse p →
  ComponentPool.entityToIndex p !! entity = None →
  index_maps_inverse (ComponentPool.add entity component p).
Proof.
  intros [Hinv Hrange] Hfresh. unfold ComponentPool.add. split; simpl.
  - intros e i. rewrite length_app. simpl.
    replace (Z.of_nat (length (ComponentPool.components p) + 1) - 1)
      with (Z.of_nat (length (ComponentPool.components p))) by lia.
    rewrite !lookup_insert_Some. split.
    + intros [[<- <-] | [Hne He]]; [by left |]. right.
      apply Hinv in He. split; [| done]. intros <-.
      assert (is_Some (ComponentPool.indexToEntity p
                         !! Z.of_nat (length (ComponentPool.components p)))) as Hs by eauto.
      apply Hrange in Hs. lia.
    + intros [[<- <-] | [Hne Hi]]; [by left |]. right.
      apply Hinv in Hi. split; [| done]. intros <-. congruence.
  - intros i. rewrite length_app. simpl.
    replace (Z.of_nat (length (ComponentPool.components p) + 1) - 1)
      with (Z.of_nat (length (ComponentPool.components p))) by lia.
    rewrite lookup_insert_is_Some, Hrange. lia.
Qed.

(** X4. [add] on a pool whose maps are inverse, for an entity without entry:
    the maps stay inverse, the entity has the value just added, and every
    other entity has the value it had. *)
Theorem add_on_consistent_pool {T} (entity : Entity) (component : T) (p : ComponentPool.t T) :
  index_maps_inverse p →
  ComponentPool.entityToIndex p !! entity = None →
  index_maps_inverse (ComponentPool.add entity component p) ∧
  value_of (ComponentPool.add entity component p) entity = Some component ∧
  ∀ other, other ≠ entity →
    value_of (ComponentPool.add entity component p) other = value_of p other.
Proof.
  intros Hwf Hfresh. split; [by apply index_maps_inverse_add |].
  destruct Hwf as [Hinv Hrange]. unfold value_of, ComponentPool.add. simpl.
  rewrite length_app. simpl.
  replace (Z.of_nat (length (ComponentPool.components p) + 1) - 1)
    with (Z.of_nat (length (ComponentPool.components p))) by lia.
  split.
  - rewrite lookup_insert_eq. simpl. rewrite decide_True by lia.
    rewrite Nat2Z.id. by apply list_lookup_middle.
  - intros other Hother. rewrite lookup_insert_ne by done.
    destruct (ComponentPool.entityToIndex p !! other) as [j|] eqn:Hj; [| done]. simpl.
    case_decide; [| done]. apply lookup_app_l.
    assert (0 ≤ j < Z.of_nat (length (ComponentPool.components p))); [| lia].
    apply Hrange. apply Hinv in Hj. eauto.
Qed.

(** What [remove] computes on a pool whose two maps are inverse, for an
    entity that has an entry. *)
Lemma remove_of_present {T} (p : ComponentPool.t T) (entity : Entity) (i : Z) :
  index_maps_inverse p →
  ComponentPool.entityToIndex p !! entity = Some i →
  0 ≤ i < Z.of_nat (length (ComponentPool.components p)) ∧
  ∃ last_entity,
    ComponentPool.indexToEntity p !! (Z.of_nat (length (ComponentPool.components p)) - 1)
      = Some last_entity ∧
    ComponentPool.remove entity p =
      {| ComponentPool.components := ECSUtils.swapRemove (ComponentPool.components p) i;
         ComponentPool.entityToIndex :=
           delete entity (<[last_entity := i]> (ComponentPool.entityToIndex p));
         ComponentPool.indexToEntity :=
           delete i (<[i := last_entity]> (ComponentPool.indexToEntity p)) |}.
Proof.
  intros [Hinv Hrange] Hi.
  assert (Hin : 0 ≤ i < Z.of_nat (length (ComponentPool.components p))).
  { apply Hrange. apply Hinv in Hi. eauto. }
  split; [done |].
  destruct (proj2 (Hrange (Z.of_nat (length (ComponentPool.components p)) - 1)))
    as [last_entity Hlast]; [lia |].
  exists last_entity. split; [done |].
  unfold ComponentPool.remove.
  by rewrite (subscript_Some _ _ _ Hi), (subscript_Some _ _ _ Hlast).
Qed.

(** X5. One [remove] from a pool whose maps are inverse, for an entity that
    has an entry: the entity has no value afterwards and every other entity
    has the value it had (the last value is moved into the hole and its
    owner's position is updated). *)
Theorem remove_keeps_other_values {T} (p : ComponentPool.t T) (entity : Entity) :
  index_maps_inverse p →
  is_Some (ComponentPool.entityToIndex p !! entity) →
  value_of (ComponentPool.remove entity p) entity = None ∧
  ∀ other, other ≠ entity →
    value_of (ComponentPool.remove entity p) other = value_of p other.
Proof.
  intros Hwf [i Hi]. pose proof Hwf as [Hinv Hrange].
  destruct (remove_of_present p entity i Hwf Hi) as (Hin & last_entity & Hlast & ->).
  unfold value_of. simpl. split.
  - by rewrite lookup_delete_eq.
  - intros other Hother. rewrite lookup_delete_ne by done.
    destruct (decide (other = last_entity)) as [-> | Hne].
    + rewrite lookup_insert_eq. simpl.
      assert (i ≠ Z.of_nat (length (ComponentPool.components p)) - 1).
      { intros ->. apply Hinv in Hi. congruence. }
      apply Hinv in Hlast. rewrite Hlast. simpl.
      rewrite !decide_True by lia.
      rewrite swapRemove_lookup by lia. rewrite decide_True by done.
      rewrite last_lookup. f_equal. lia.
    + rewrite lookup_insert_ne by done.
      destruct (ComponentPool.entityToIndex p !! other) as [j|] eqn:Hj; [| done]. simpl.
      assert (Hjin : 0 ≤ j < Z.of_nat (length (ComponentPool.components p))).
      { apply Hrange. apply Hinv in Hj. eauto. }
      rewrite decide_True by lia.
      assert (j ≠ i).
      { intros ->. apply Hinv in Hi, Hj. congruence. }
      assert (j ≠ Z.of_nat (length (ComponentPool.components p)) - 1).
      { intros ->. apply Hinv in Hj. congruence. }
      rewrite swapRemove_lookup by lia. rewrite decide_False by lia. by rewrite decide_True by lia.
Qed.

(** X6. Removing the entity that holds the last position keeps the two maps
    inverse and shortens the vector by one: pools used as a stack stay
    consistent. *)
Theorem remove_last_keeps_index_maps {T} (p : ComponentPool.t T) (entity : Entity) :
  index_maps_inverse p →
  ComponentPool.entityToIndex p !! entity
    = Some (Z.of_nat (length (ComponentPool.components p)) - 1) →
  index_maps_inverse (ComponentPool.remove entity p) ∧
  length (ComponentPool.components (ComponentPool.remove entity p))
    = (length (ComponentPool.components p) - 1)%nat.
Proof.
  intros Hwf Hi. pose proof Hwf as [Hinv Hrange].
  destruct (remove_of_present p entity _ Hwf Hi) as (Hin & last_entity & Hlast & ->).
  assert (last_entity = entity) as -> by (apply Hinv in Hi; congruence).
  assert (Hlen : length (ECSUtils.swapRemove (ComponentPool.components p)
                           (Z.of_nat (length (ComponentPool.components p)) - 1))
                 = (length (ComponentPool.components p) - 1)%nat).
  { destruct (ComponentPool.components p) as [|x l] using rev_ind; [simpl in Hin; lia |].
    rewrite length_app. simpl.
    replace (Z.of_nat (length l + 1) - 1) with (Z.of_nat (length l)) by lia.
    rewrite swapRemove_last. lia. }
  split; [| done]. split; simpl.
  - intros e i. rewrite !lookup_delete_Some, !lookup_insert_Some. split.
    + intros [Hne [[? _] | [_ He]]]; [done |].
      split; [| right; split; [| by apply Hinv]].
      * intros <-. apply Hinv in He. congruence.
      * intros <-. apply Hinv in He. congruence.
    + intros [Hne [[? _] | [_ He]]]; [done |].
      apply Hinv in He. split; [congruence |]. right. split; [congruence | done].
  - intros i. rewrite Hlen. unfold is_Some. setoid_rewrite lookup_delete_Some.
    setoid_rewrite lookup_insert_Some. split.
    + intros (e & Hne & [[? _] | [_ He]]); [done |].
      assert (0 ≤ i < Z.of_nat (length (ComponentPool.components p))) by (apply Hrange; eauto).
      lia.
    + intros Hi'. destruct (proj2 (Hrange i)) as [e He]; [lia |].
      exists e. split; [lia |]. right. split; [lia | done].
Qed.

(** ** The loops of SystemManager, list by list *)

(** A loop whose [i]-th pass rewrites the [i]-th membership list with [g i]
    and touches nothing else rewrites every list once. *)
Lemma for_loop_pointwise (body : nat → SystemManager.t → outcome SystemManager.t)
    (g : nat → list Entity → list Entity) (sm : SystemManager.t) (n : nat) :
  (∀ i sm1 l, (i < n)%nat → same_shape sm sm1 →
     SystemManager.entitiesVec sm1 !! i = Some l →
     ∃ sm2, body i sm1 = Ok sm2 ∧
            SystemManager.systems sm2 = SystemManager.systems sm1 ∧
            SystemManager.entitiesVec sm2 = <[i := g i l]> (SystemManager.entitiesVec sm1)) →
  (n ≤ length (SystemManager.entitiesVec sm))%nat →
  ∃ sm', for_loop n body sm = Ok sm' ∧ same_shape sm sm' ∧
         ∀ i l, SystemManager.entitiesVec sm !! i = Some l →
                SystemManager.entitiesVec sm' !! i
                = Some (if decide (i < n)%nat then g i l else l).
Proof.
  intros Hbody. induction n as [|n IH]; intros Hn.
  - exists sm. split; [done |]. split; [done |]. intros i l Hl.
    by rewrite decide_False by lia.
  - destruct IH as (sm1 & Hloop & Hshape & Hlists); [intros; apply Hbody; [lia | done..] | lia |].
    destruct (lookup_lt_is_Some_2 (SystemManager.entitiesVec sm) n) as [l Hl]; [lia |].
    pose proof (Hlists n l Hl) as Hl1. rewrite decide_False in Hl1 by lia.
    destruct (Hbody n sm1 l) as (sm2 & Hstep & Hsys & Hvec); [lia | done | done |].
    exists sm2. rewrite for_loop_S, Hloop. simpl. split; [done |].
    destruct Hshape as [Hsys1 Hlen1]. split.
    + split; [congruence |]. by rewrite Hvec, length_insert.
    + intros i l' Hl'. rewrite Hvec. destruct (decide (i = n)) as [-> | Hne].
      * rewrite list_lookup_insert_eq by lia. rewrite decide_True by lia. congruence.
      * rewrite list_lookup_insert_ne by done. rewrite (Hlists i l' Hl').
        destruct (decide (i < n)%nat); [by rewrite decide_True by lia |
                                        by rewrite decide_False by lia].
Qed.

Lemma onEntitySignatureChange_body_step entity signature i sm1 system l :
  SystemManager.systems sm1 !! i = Some system →
  SystemManager.entitiesVec sm1 !! i = Some l →
  ∃ sm2, SystemManager.onEntitySignatureChange_body entity signature i sm1 = Ok sm2 ∧
         SystemManager.systems sm2 = SystemManager.systems sm1 ∧
         SystemManager.entitiesVec sm2
         = <[i := update_members entity signature system l]> (SystemManager.entitiesVec sm1).
Proof.
  intros Hsys Hl. unfold SystemManager.onEntitySignatureChange_body, update_members.
  rewrite (proj2 (at_index_Ok _ (Z.of_nat i) system)) by (rewrite Nat2Z.id; split; [lia | done]).
  rewrite (proj2 (at_index_Ok _ (Z.of_nat i) l)) by (rewrite Nat2Z.id; split; [lia | done]).
  simpl. case_decide; simpl; [case_decide |]; eexists; (split; [reflexivity |]); simpl.
  - split; [done |]. by rewrite list_insert_id.
  - done.
  - done.
Qed.

Lemma onEntitySignatureChange_lists entity signature (sm : SystemManager.t) :
  length (SystemManager.entitiesVec sm) = length (SystemManager.systems sm) →
  ∃ sm', SystemManager.onEntitySignatureChange entity signature sm = Ok sm' ∧
         SystemManager.systems sm' = SystemManager.systems sm ∧
         length (SystemManager.entitiesVec sm') = length (SystemManager.entitiesVec sm) ∧
         ∀ i system l,
           SystemManager.systems sm !! i = Some system →
           SystemManager.entitiesVec sm !! i = Some l →
           SystemManager.entitiesVec sm' !! i
           = Some (update_members entity signature system l).
Proof.
  intros Hlen. unfold SystemManager.onEntitySignatureChange.
  destruct (for_loop_pointwise
              (SystemManager.onEntitySignatureChange_body entity signature)
              (λ i l, match SystemManager.systems sm !! i with
                      | Some system => update_members entity signature system l
                      | None => l
                      end)
              sm (length (SystemManager.systems sm)))
    as (sm' & Hloop & [Hsys Hlen'] & Hlists); [| lia |].
  - intros i sm1 l Hi [Hsys1 Hlen1] Hl.
    destruct (lookup_lt_is_Some_2 (SystemManager.systems sm) i Hi) as [system Hsystem].
    rewrite Hsystem. apply onEntitySignatureChange_body_step; [congruence | done].
  - exists sm'. split_and!; try done.
    intros i system l Hsystem Hl. rewrite (Hlists i l Hl), Hsystem.
    rewrite decide_True; [done |]. by eapply lookup_lt_Some.
Qed.

Lemma onEntityDestroy_lists entity (sm : SystemManager.t) :
  length (SystemManager.entitiesVec sm) = length (SystemManager.systems sm) →
  ∃ sm', SystemManager.onEntityDestroy entity sm = Ok sm' ∧
         SystemManager.systems sm' = SystemManager.systems sm ∧
         SystemManager.entitiesVec sm'
         = (λ l, ECSUtils.swapRemove l entity) <$> SystemManager.entitiesVec sm.
Proof.
  intros Hlen. unfold SystemManager.onEntityDestroy.
  destruct (for_loop_pointwise (SystemManager.onEntityDestroy_body entity)
              (λ _ l, ECSUtils.swapRemove l entity) sm (length (SystemManager.systems sm)))
    as (sm' & Hloop & [Hsys Hlen'] & Hlists); [| lia |].
  - intros i sm1 l Hi _ Hl. unfold SystemManager.onEntityDestroy_body.
    rewrite (proj2 (at_index_Ok _ (Z.of_nat i) l)) by (rewrite Nat2Z.id; split; [lia | done]).
    simpl. eexists. split; [reflexivity |]. done.
  - exists sm'. split_and!; try done. apply list_eq. intros i.
    rewrite list_lookup_fmap.
    destruct (SystemManager.entitiesVec sm !! i) as [l|] eqn:Hl; simpl.
    + rewrite (Hlists i l Hl). rewrite decide_True; [done |].
      rewrite <- Hlen. by eapply lookup_lt_Some.
    + apply lookup_ge_None in Hl. apply lookup_ge_None. lia.
Qed.

(** ** What one call of the facade changes *)

Lemma getComponentTypeId_again (T : string) st :
  ComponentManager.getComponentTypeId T (ComponentManager.getComponentTypeId T st).2
  = ComponentManager.getComponentTypeId T st.
Proof.
  unfold ComponentManager.getComponentTypeId at 2 3.
  destruct (ComponentManager.type_id st !! T) as [id|] eqn:HT; simpl.
  - by apply getComponentTypeId_known.
  - apply getComponentTypeId_known. simpl. by rewrite lookup_insert_eq.
Qed.

Lemma getComponentTypeId_recorded (T : string) st :
  ComponentManager.type_id (ComponentManager.getComponentTypeId T st).2 !! T
  = Some (ComponentManager.getComponentTypeId T st).1.
Proof.
  unfold ComponentManager.getComponentTypeId.
  destruct (ComponentManager.type_id st !! T) as [id|] eqn:HT; simpl; [done |].
  by rewrite lookup_insert_eq.
Qed.

Lemma getComponentTypeId_keeps (T T' : string) (id : Z) st :
  ComponentManager.type_id st !! T = Some id →
  ComponentManager.type_id (ComponentManager.getComponentTypeId T' st).2 !! T = Some id.
Proof.
  intros HT. unfold ComponentManager.getComponentTypeId.
  destruct (ComponentManager.type_id st !! T') as [id'|] eqn:HT'; simpl; [done |].
  rewrite lookup_insert_ne; [done | congruence].
Qed.

(** [assignComponent] and [removeComponent] differ in the pool operation and
    in the bit operation only. *)
Lemma assignComponent_Ok {V} (T : string) (entity : Entity) (component : V) (s s' : ECS.state V) :
  ECS.assignComponent T entity component s = Ok s' →
  ∃ signature cm,
    let id := (ComponentManager.getComponentTypeId T (ECS.statics s)).1 in
    ECS.statics s' = (ComponentManager.getComponentTypeId T (ECS.statics s)).2 ∧
    0 ≤ id < MAX_COMPONENTS ∧
    ComponentManager.add T entity component (ECS.statics s) (ECS.componentManager (ECS.ecs s))
      = Ok (ECS.statics s', cm) ∧
    ECS.componentManager (ECS.ecs s') = cm ∧
    at_index (EntityManager.signatures (ECS.entityManager (ECS.ecs s))) entity = Ok signature ∧
    ECS.entityManager (ECS.ecs s') =
      {| EntityManager.availableEntities :=
           EntityManager.availableEntities (ECS.entityManager (ECS.ecs s));
         EntityManager.signatures :=
           <[Z.to_nat entity := Z.setbit signature id]>
             (EntityManager.signatures (ECS.entityManager (ECS.ecs s))) |} ∧
    SystemManager.onEntitySignatureChange entity (Z.setbit signature id)
      (ECS.systemManager (ECS.ecs s)) = Ok (ECS.systemManager (ECS.ecs s')).
Proof.
  unfold ECS.assignComponent. intros H.
  apply bind_Ok in H as ([st1 cm] & Hcm & H).
  pose proof (add_Ok _ _ _ _ _ _ _ Hcm) as [-> _].
  apply bind_Ok in H as (signature & Hsig & H).
  rewrite getComponentTypeId_again in H.
  destruct (ComponentManager.getComponentTypeId T (ECS.statics s)) as [id st2] eqn:Hid.
  simpl in *.
  apply bind_Ok in H as (signature' & Hset & H).
  unfold bitset.set in Hset. case_decide as Hrange; [| done]. inversion Hset; subst signature'.
  apply bind_Ok in H as (em & Hem & H).
  apply bind_Ok in H as (sm & Hsm & H).
  unfold EntityManager.setSignature in Hem. unfold EntityManager.getSignature in Hsig.
  rewrite Hsig in Hem. simpl in Hem.
  inversion Hem; subst em. inversion H; subst s'. simpl.
  exists signature, cm. split_and!; try done; lia.
Qed.

Lemma removeComponent_Ok {V} (T : string) (entity : Entity) (s s' : ECS.state V) :
  ECS.removeComponent T entity s = Ok s' →
  ∃ signature cm,
    let id := (ComponentManager.getComponentTypeId T (ECS.statics s)).1 in
    ECS.statics s' = (ComponentManager.getComponentTypeId T (ECS.statics s)).2 ∧
    0 ≤ id < MAX_COMPONENTS ∧
    ComponentManager.remove T entity (ECS.statics s) (ECS.componentManager (ECS.ecs s))
      = Ok (ECS.statics s', cm) ∧
    ECS.componentManager (ECS.ecs s') = cm ∧
    at_index (EntityManager.signatures (ECS.entityManager (ECS.ecs s))) entity = Ok signature ∧
    ECS.entityManager (ECS.ecs s') =
      {| EntityManager.availableEntities :=
           EntityManager.availableEntities (ECS.entityManager (ECS.ecs s));
         EntityManager.signatures :=
           <[Z.to_nat entity := Z.clearbit signature id]>
             (EntityManager.signatures (ECS.entityManager (ECS.ecs s))) |} ∧
    SystemManager.onEntitySignatureChange entity (Z.clearbit signature id)
      (ECS.systemManager (ECS.ecs s)) = Ok (ECS.systemManager (ECS.ecs s')).
Proof.
  unfold ECS.removeComponent. intros H.
  apply bind_Ok in H as ([st1 cm] & Hcm & H).
  pose proof (remove_Ok _ _ _ _ _ _ Hcm) as [-> _].
  apply bind_Ok in H as (signature & Hsig & H).
  rewrite getComponentTypeId_again in H.
  destruct (ComponentManager.getComponentTypeId T (ECS.statics s)) as [id st2] eqn:Hid.
  simpl in *.
  apply bind_Ok in H as (signature' & Hset & H).
  unfold bitset.reset in Hset. case_decide as Hrange; [| done]. inversion Hset; subst signature'.
  apply bind_Ok in H as (em & Hem & H).
  apply bind_Ok in H as (sm & Hsm & H).
  unfold EntityManager.setSignature in Hem. unfold EntityManager.getSignature in Hsig.
  rewrite Hsig in Hem. simpl in Hem.
  inversion Hem; subst em. inversion H; subst s'. simpl.
  exists signature, cm. split_and!; try done; lia.
Qed.

Lemma destroyEntity_Ok {V} (entity : Entity) (s s' : ECS.state V) :
  ECS.destroyEntity entity s = Ok s' →
  ∃ signature,
    ECS.statics s' = ECS.statics s ∧
    at_index (EntityManager.signatures (ECS.entityManager (ECS.ecs s))) entity = Ok signature ∧
    ECS.entityManager (ECS.ecs s') =
      {| EntityManager.availableEntities :=
           EntityManager.availableEntities (ECS.entityManager (ECS.ecs s)) ++ [entity];
         EntityManager.signatures :=
           <[Z.to_nat entity := 0]> (EntityManager.signatures (ECS.entityManager (ECS.ecs s))) |} ∧
    ECS.componentManager (ECS.ecs s') =
      ComponentManager.onEntityDestroy entity (ECS.componentManager (ECS.ecs s)) ∧
    SystemManager.onEntityDestroy entity (ECS.systemManager (ECS.ecs s))
      = Ok (ECS.systemManager (ECS.ecs s')).
Proof.
  unfold ECS.destroyEntity, EntityManager.destroy. intros H.
  apply bind_Ok in H as (em & Hem & H).
  apply bind_Ok in Hem as (signature & Hsig & Hem). inversion Hem; subst em.
  apply bind_Ok in H as (sm & Hsm & H). inversion H; subst s'. simpl.
  exists signature. by split_and!.
Qed.

(** ** More invariants of reachable states *)

Lemma getComponentTypeId_ids_wf (T : string) st :
  ids_wf st → ids_wf (ComponentManager.getComponentTypeId T st).2.
Proof.
  intros (Hcount & Hrange & Hinj). unfold ComponentManager.getComponentTypeId.
  destruct (ComponentManager.type_id st !! T) as [id|] eqn:HT; simpl; [done |].
  split_and!; simpl.
  - lia.
  - intros T' id H. apply lookup_insert_Some in H as [[_ <-] | [_ H]]; [lia |].
    apply Hrange in H. lia.
  - intros T1 T2 id H1 H2.
    apply lookup_insert_Some in H1 as [[<- <-] | [Hne1 H1]];
      apply lookup_insert_Some in H2 as [[<- Heq] | [Hne2 H2]]; try done.
    + apply Hrange in H2. lia.
    + apply Hrange in H1. lia.
    + by eapply Hinj.
Qed.

(** Whatever the statics keep under [getComponentTypeId] holds in every
    reachable state: the facade changes them through that function only. *)
Lemma reachable_statics {V} (P : ComponentManager.statics → Prop)
    (s : ECS.state V) (live : list Entity) :
  P ComponentManager.statics_init →
  (∀ T st, P st → P (ComponentManager.getComponentTypeId T st).2) →
  ECS.reachable s live → P (ECS.statics s).
Proof.
  intros Hinit Hstep.
  induction 1 as [ | s live T s' _ IH Hcall | s live system _ IH | s live T _ IH
                   | s live entity s' _ IH Hcall | s live entity s' _ IH Hlive Hcall
                   | s live T entity component s' _ IH Hcall
                   | s live T entity s' _ IH Hcall
                   | s live T entity ptr s' _ IH Hcall ].
  - done.
  - unfold ECS.registerComponent in Hcall.
    apply bind_Ok in Hcall as ([st cm] & Hreg & Hcall).
    apply registerComponent_Ok in Hreg as [-> _]. inversion Hcall; subst. by apply Hstep.
  - done.
  - unfold ECS.getComponentTypeId. specialize (Hstep T _ IH).
    by destruct (ComponentManager.getComponentTypeId T (ECS.statics s)).
  - unfold ECS.newEntity in Hcall. apply bind_Ok in Hcall as ([e em] & _ & Hcall).
    by inversion Hcall; subst.
  - apply destroyEntity_Ok in Hcall as (_ & -> & _). done.
  - apply assignComponent_Ok in Hcall as (_ & _ & -> & _). by apply Hstep.
  - apply removeComponent_Ok in Hcall as (_ & _ & -> & _). by apply Hstep.
  - unfold ECS.getComponent in Hcall.
    apply bind_Ok in Hcall as ([[ptr' st] cm] & Hget & Hcall).
    apply get_Ok in Hget as [-> _]. inversion Hcall; subst. by apply Hstep.
Qed.

Lemma reachable_ids_wf {V} (s : ECS.state V) (live : list Entity) :
  ECS.reachable s live → ids_wf (ECS.statics s).
Proof.
  apply reachable_statics.
  - split_and!; simpl; [done | |].
    + intros T id H. by rewrite lookup_empty in H.
    + intros T1 T2 id H. by rewrite lookup_empty in H.
  - intros. by apply getComponentTypeId_ids_wf.
Qed.

(** *** Signatures are two-bit values *)

Lemma setbit_in_width (signature id : Z) :
  0 ≤ signature < 2 ^ MAX_COMPONENTS → 0 ≤ id < MAX_COMPONENTS →
  0 ≤ Z.setbit signature id < 2 ^ MAX_COMPONENTS.
Proof.
  unfold MAX_COMPONENTS. intros Hs Hid.
  assert (signature = 0 ∨ signature = 1 ∨ signature = 2 ∨ signature = 3) as Hcases by lia.
  assert (id = 0 ∨ id = 1) as [-> | ->] by lia;
    destruct Hcases as [-> | [-> | [-> | ->]]]; by vm_compute.
Qed.

Lemma clearbit_in_width (signature id : Z) :
  0 ≤ signature < 2 ^ MAX_COMPONENTS → 0 ≤ id < MAX_COMPONENTS →
  0 ≤ Z.clearbit signature id < 2 ^ MAX_COMPONENTS.
Proof.
  unfold MAX_COMPONENTS. intros Hs Hid.
  assert (signature = 0 ∨ signature = 1 ∨ signature = 2 ∨ signature = 3) as Hcases by lia.
  assert (id = 0 ∨ id = 1) as [-> | ->] by lia;
    destruct Hcases as [-> | [-> | [-> | ->]]]; by vm_compute.
Qed.

Lemma Forall_insert_in {A} (P : A → Prop) (l : list A) (i : nat) (x : A) :
  Forall P l → P x → Forall P (<[i := x]> l).
Proof.
  intros Hl Hx. apply Forall_lookup. intros j y Hj.
  destruct (decide (i = j)) as [-> | Hne].
  - destruct (decide (j < length l)%nat).
    + rewrite list_lookup_insert_eq in Hj by done. by inversion Hj; subst.
    + rewrite list_insert_ge in Hj by lia. by eapply (Forall_lookup_1 P l).
  - rewrite list_lookup_insert_ne in Hj by done. by eapply (Forall_lookup_1 P l).
Qed.

(** X7. In every reachable state every stored signature is a value of
    [MAX_COMPONENTS] bits: [set] and [reset] refuse positions outside the
    bitset, and nothing else writes a signature but the reset of [destroy]. *)
Theorem signatures_in_width {V} (s : ECS.state V) (live : list Entity) :
  ECS.reachable s live →
  Forall (λ signature, 0 ≤ signature < 2 ^ MAX_COMPONENTS)
         (EntityManager.signatures (ECS.entityManager (ECS.ecs s))).
Proof.
  induction 1 as [ | s live T s' _ IH Hcall | s live system _ IH | s live T _ IH
                   | s live entity s' _ IH Hcall | s live entity s' _ IH Hlive Hcall
                   | s live T entity component s' _ IH Hcall
                   | s live T entity s' _ IH Hcall
                   | s live T entity ptr s' _ IH Hcall ].
  - cbn -[MAX_ENTITIES MAX_COMPONENTS]. apply Forall_replicate. by vm_compute.
  - unfold ECS.registerComponent in Hcall.
    apply bind_Ok in Hcall as ([st cm] & _ & Hcall). by inversion Hcall; subst.
  - done.
  - unfold ECS.getComponentTypeId.
    by destruct (ComponentManager.getComponentTypeId T (ECS.statics s)).
  - unfold ECS.newEntity in Hcall. apply bind_Ok in Hcall as ([e em] & Hnew & Hcall).
    apply createNew_Ok in Hnew as [_ Hsig]. inversion Hcall; subst. simpl. by rewrite Hsig.
  - apply destroyEntity_Ok in Hcall as (signature & _ & _ & -> & _). simpl.
    apply Forall_insert_in; [done | by vm_compute].
  - apply assignComponent_Ok in Hcall as (signature & cm & _ & Hid & _ & _ & Hsig & -> & _).
    simpl. apply Forall_insert_in; [done |]. apply setbit_in_width; [| done].
    apply at_index_Ok in Hsig as [_ Hsig]. by eapply (Forall_lookup_1 _ _ _ _ IH).
  - apply removeComponent_Ok in Hcall as (signature & cm & _ & Hid & _ & _ & Hsig & -> & _).
    simpl. apply Forall_insert_in; [done |]. apply clearbit_in_width; [| done].
    apply at_index_Ok in Hsig as [_ Hsig]. by eapply (Forall_lookup_1 _ _ _ _ IH).
  - unfold ECS.getComponent in Hcall.
    apply bind_Ok in Hcall as ([[ptr' st] cm] & _ & Hcall). by inversion Hcall; subst.
Qed.

(** *** Membership lists *)

Lemma swapRemove_out_of_range {T} (vec : list T) (index : Z) :
  ¬ 0 ≤ index < Z.of_nat (length vec) → ECSUtils.swapRemove vec index = vec.
Proof.
  intros Hout. unfold ECSUtils.swapRemove.
  case_decide; [done |]. case_decide; [done | lia].
Qed.

Lemma swapRemove_keeps {T} (P : T → Prop) (vec : list T) (index : Z) :
  NoDup vec → Forall P vec →
  NoDup (ECSUtils.swapRemove vec index) ∧ Forall P (ECSUtils.swapRemove vec index).
Proof.
  intros Hnodup HP.
  destruct (decide (0 ≤ index < Z.of_nat (length vec))) as [Hin | Hout].
  - destruct (lookup_lt_is_Some_2 vec (Z.to_nat index)) as [x Hx]; [lia |].
    pose proof (swapRemove_Permutation vec index x (proj1 Hin) Hx) as Hperm.
    rewrite Hperm in Hnodup, HP.
    apply NoDup_cons in Hnodup as [_ ?]. apply Forall_cons in HP as [_ ?]. done.
  - by rewrite swapRemove_out_of_range.
Qed.

Lemma update_members_keeps (P : Entity → Prop) entity signature system l :
  NoDup l → Forall P l → P entity →
  NoDup (update_members entity signature system l) ∧
  Forall P (update_members entity signature system l).
Proof.
  intros Hnodup HP He. unfold update_members.
  case_decide; [case_decide |].
  - done.
  - split.
    + apply NoDup_app. split_and!; [done | | apply NoDup_singleton].
      intros x Hx Hx'. apply list_elem_of_singleton in Hx'. by subst.
    + apply Forall_app. split; [done |]. by apply Forall_singleton.
  - by apply swapRemove_keeps.
Qed.

Lemma onEntitySignatureChange_members_ok entity signature sm sm' :
  length (SystemManager.entitiesVec sm) = length (SystemManager.systems sm) →
  0 ≤ entity < MAX_ENTITIES →
  SystemManager.onEntitySignatureChange entity signature sm = Ok sm' →
  members_ok sm → members_ok sm'.
Proof.
  intros Hlen He Hcall Hok.
  destruct (onEntitySignatureChange_lists entity signature sm Hlen)
    as (sm1 & Hcall1 & Hsys & Hlen1 & Hlists).
  rewrite Hcall in Hcall1. inversion Hcall1; subst sm1; clear Hcall1.
  apply Forall_lookup. intros i l' Hl'.
  destruct (lookup_lt_is_Some_2 (SystemManager.entitiesVec sm) i) as [l Hl].
  { rewrite <- Hlen1. by eapply lookup_lt_Some. }
  destruct (lookup_lt_is_Some_2 (SystemManager.systems sm) i) as [system Hsystem].
  { rewrite <- Hlen. by eapply lookup_lt_Some. }
  rewrite (Hlists i system l Hsystem Hl) in Hl'. inversion Hl'; subst l'.
  destruct (Forall_lookup_1 _ _ _ _ Hok Hl) as [Hnodup Hrange].
  by apply update_members_keeps.
Qed.

Lemma onEntityDestroy_members_ok entity sm sm' :
  length (SystemManager.entitiesVec sm) = length (SystemManager.systems sm) →
  SystemManager.onEntityDestroy entity sm = Ok sm' →
  members_ok sm → members_ok sm'.
Proof.
  intros Hlen Hcall Hok.
  destruct (onEntityDestroy_lists entity sm Hlen) as (sm1 & Hcall1 & Hsys & Hvec).
  rewrite Hcall in Hcall1. inversion Hcall1; subst sm1; clear Hcall1.
  unfold members_ok. rewrite Hvec. apply Forall_fmap.
  eapply Forall_impl; [exact Hok |]. intros l [Hnodup Hrange]. simpl.
  by apply swapRemove_keeps.
Qed.

Lemma at_index_signatures_range {V} (s : ECS.state V) live entity signature :
  consistent s live →
  at_index (EntityManager.signatures (ECS.entityManager (ECS.ecs s))) entity = Ok signature →
  0 ≤ entity < MAX_ENTITIES.
Proof.
  intros (_ & Hsig & _) Hat. apply at_index_Ok in Hat as [Hpos Hat].
  apply lookup_lt_Some in Hat. lia.
Qed.

Lemma reachable_members_ok {V} (s : ECS.state V) (live : list Entity) :
  ECS.reachable s live → members_ok (ECS.systemManager (ECS.ecs s)).
Proof.
  induction 1 as [ | s live T s' Hreach IH Hcall | s live system Hreach IH | s live T Hreach IH
                   | s live entity s' Hreach IH Hcall | s live entity s' Hreach IH Hlive Hcall
                   | s live T entity component s' Hreach IH Hcall
                   | s live T entity s' Hreach IH Hcall
                   | s live T entity ptr s' Hreach IH Hcall ];
    try pose proof (reachable_consistent _ _ Hreach) as Hcons.
  - apply Forall_nil_2.
  - unfold ECS.registerComponent in Hcall.
    apply bind_Ok in Hcall as ([st cm] & _ & Hcall). by inversion Hcall; subst.
  - unfold members_ok. simpl. apply Forall_app. split; [done |].
    apply Forall_singleton. split; [apply NoDup_nil_2 | apply Forall_nil_2].
  - unfold ECS.getComponentTypeId.
    by destruct (ComponentManager.getComponentTypeId T (ECS.statics s)).
  - unfold ECS.newEntity in Hcall. apply bind_Ok in Hcall as ([e em] & _ & Hcall).
    by inversion Hcall; subst.
  - apply destroyEntity_Ok in Hcall as (signature & _ & _ & _ & _ & Hsm).
    destruct Hcons as (_ & _ & _ & Hvec & _). by eapply onEntityDestroy_members_ok.
  - apply assignComponent_Ok in Hcall as (signature & cm & _ & _ & _ & _ & Hsig & _ & Hsm).
    pose proof (at_index_signatures_range s live entity signature Hcons Hsig).
    destruct Hcons as (_ & _ & _ & Hvec & _). by eapply onEntitySignatureChange_members_ok.
  - apply removeComponent_Ok in Hcall as (signature & cm & _ & _ & _ & _ & Hsig & _ & Hsm).
    pose proof (at_index_signatures_range s live entity signature Hcons Hsig).
    destruct Hcons as (_ & _ & _ & Hvec & _). by eapply onEntitySignatureChange_members_ok.
  - unfold ECS.getComponent in Hcall.
    apply bind_Ok in Hcall as ([[ptr' st] cm] & _ & Hcall). by inversion Hcall; subst.
Qed.

(** X8. In every reachable state a membership list has no duplicates, holds
    entity ids of [0 .. MAX_ENTITIES - 1] only, and so is at most
    [MAX_ENTITIES] long. *)
Theorem members_distinct_in_range {V} (s : ECS.state V) (live : list Entity) (i : nat)
    (entities : list Entity) :
  ECS.reachable s live → ECS.members i s = Some entities →
  NoDup entities ∧
  (∀ e, e ∈ entities → 0 ≤ e < MAX_ENTITIES) ∧
  (length entities ≤ Z.to_nat MAX_ENTITIES)%nat.
Proof.
  intros Hreach Hi. pose proof (reachable_members_ok s live Hreach) as Hok.
  destruct (Forall_lookup_1 _ _ _ _ Hok Hi) as [Hnodup Hrange].
  split; [done |]. split.
  - intros e He. by apply (proj1 (Forall_forall _ _) Hrange).
  - rewrite <- (length_seqZ 0 MAX_ENTITIES). apply submseteq_length.
    apply NoDup_submseteq; [done |]. intros e He. apply elem_of_seqZ.
    apply (proj1 (Forall_forall _ _) Hrange) in He. lia.
Qed.

(** ** Signatures under the facade *)

Lemma at_index_insert_other {A} (l : list A) (i j : Z) (x : A) :
  0 ≤ i → j ≠ i → at_index (<[Z.to_nat i := x]> l) j = at_index l j.
Proof.
  intros Hi Hne. unfold at_index. case_decide; [| done].
  rewrite list_lookup_insert_ne; [done | lia].
Qed.

Lemma at_index_insert_same {A} (l : list A) (i : Z) (x y : A) :
  at_index l i = Ok y → at_index (<[Z.to_nat i := x]> l) i = Ok x.
Proof.
  intros Hat. apply at_index_Ok in Hat as [Hpos Hat]. apply at_index_Ok. split; [done |].
  apply list_lookup_insert_eq. by eapply lookup_lt_Some.
Qed.

(** X9. [assignComponent<T>] that returns has set bit [id(T)] of the entity's
    signature and [removeComponent<T>] that returns has cleared it; the other
    bits of that signature and the signatures of all other entities are as
    before, and the id is inside the bitset. *)
Theorem signature_after_assign_remove {V} (T : string) (entity : Entity) (s s' : ECS.state V) :
  (∀ component, ECS.assignComponent T entity component s = Ok s' →
     ∃ id signature,
       ComponentManager.type_id (ECS.statics s') !! T = Some id ∧
       0 ≤ id < MAX_COMPONENTS ∧
       ECS.getSignature entity s = Ok signature ∧
       ECS.getSignature entity s' = Ok (Z.setbit signature id) ∧
       (∀ bit, 0 ≤ bit →
          Z.testbit (Z.setbit signature id) bit
          = if decide (bit = id) then true else Z.testbit signature bit) ∧
       (∀ other, other ≠ entity → ECS.getSignature other s' = ECS.getSignature other s)) ∧
  (ECS.removeComponent T entity s = Ok s' →
     ∃ id signature,
       ComponentManager.type_id (ECS.statics s') !! T = Some id ∧
       0 ≤ id < MAX_COMPONENTS ∧
       ECS.getSignature entity s = Ok signature ∧
       ECS.getSignature entity s' = Ok (Z.clearbit signature id) ∧
       (∀ bit, 0 ≤ bit →
          Z.testbit (Z.clearbit signature id) bit
          = if decide (bit = id) then false else Z.testbit signature bit) ∧
       (∀ other, other ≠ entity → ECS.getSignature other s' = ECS.getSignature other s)).
Proof.
  split.
  - intros component Hcall.
    apply assignComponent_Ok in Hcall as (signature & cm & Hst & Hid & _ & _ & Hsig & Hem & _).
    exists (ComponentManager.getComponentTypeId T (ECS.statics s)).1, signature.
    pose proof (proj1 (at_index_Ok _ _ _) Hsig) as [Hpos _].
    unfold ECS.getSignature, EntityManager.getSignature. rewrite Hem, Hst. simpl.
    split_and!; try done; try lia.
    + apply getComponentTypeId_recorded.
    + by eapply at_index_insert_same.
    + intros bit Hbit. case_decide as Heq.
      * subst bit. by apply Z.setbit_eq.
      * apply Z.setbit_neq; lia.
    + intros other Hother. by apply at_index_insert_other.
  - intros Hcall.
    apply removeComponent_Ok in Hcall as (signature & cm & Hst & Hid & _ & _ & Hsig & Hem & _).
    exists (ComponentManager.getComponentTypeId T (ECS.statics s)).1, signature.
    pose proof (proj1 (at_index_Ok _ _ _) Hsig) as [Hpos _].
    unfold ECS.getSignature, EntityManager.getSignature. rewrite Hem, Hst. simpl.
    split_and!; try done; try lia.
    + apply getComponentTypeId_recorded.
    + by eapply at_index_insert_same.
    + intros bit Hbit. case_decide as Heq.
      * subst bit. by apply Z.clearbit_eq.
      * apply Z.clearbit_neq; lia.
    + intros other Hother. by apply at_index_insert_other.
Qed.

(** ** Enrolment *)

Lemma update_members_enrols entity signature system l :
  Z.land signature (getSignature system) = getSignature system →
  entity ∈ update_members entity signature system l ∧
  (update_members entity signature system l = l ∨
   update_members entity signature system l = l ++ [entity]).
Proof.
  intros Hmatch. unfold update_members. rewrite decide_True by done.
  case_decide; [by split; [| left] |]. split; [| by right].
  apply elem_of_app. right. apply list_elem_of_here.
Qed.

(** X10. What [assignComponent] and [removeComponent] do to membership, in
    every reachable state: with [signature] the new signature of the entity,
    the list of each system becomes [update_members] of its old list.  For
    a system whose requirement the new signature contains, the entity is a
    member afterwards and nobody else joined or left; for any other system
    the list lost whatever stood at position [entity]. *)
Theorem membership_after_signature_change {V} (s s' : ECS.state V) (live : list Entity)
    (T : string) (entity : Entity) :
  ECS.reachable s live →
  (∃ component, ECS.assignComponent T entity component s = Ok s') ∨
  ECS.removeComponent T entity s = Ok s' →
  ∃ signature,
    ECS.getSignature entity s' = Ok signature ∧
    SystemManager.systems (ECS.systemManager (ECS.ecs s'))
      = SystemManager.systems (ECS.systemManager (ECS.ecs s)) ∧
    ∀ i system before,
      SystemManager.systems (ECS.systemManager (ECS.ecs s)) !! i = Some system →
      ECS.members i s = Some before →
      ECS.members i s' = Some (update_members entity signature system before) ∧
      (Z.land signature (getSignature system) = getSignature system →
         entity ∈ update_members entity signature system before ∧
         (update_members entity signature system before = before ∨
          update_members entity signature system before = before ++ [entity])) ∧
      (Z.land signature (getSignature system) ≠ getSignature system →
         update_members entity signature system before
         = ECSUtils.swapRemove before entity).
Proof.
  intros Hreach Hcall.
  pose proof (reachable_consistent s live Hreach) as (_ & _ & _ & Hvec & _).
  assert (∃ signature,
            ECS.getSignature entity s' = Ok signature ∧
            SystemManager.onEntitySignatureChange entity signature
              (ECS.systemManager (ECS.ecs s)) = Ok (ECS.systemManager (ECS.ecs s')))
    as (signature & Hsig & Hsm).
  { unfold ECS.getSignature, EntityManager.getSignature.
    destruct Hcall as [[component Hcall] | Hcall].
    - apply assignComponent_Ok in Hcall as (sig0 & cm & _ & _ & _ & _ & Hsig0 & Hem & Hsm).
      eexists. split; [| exact Hsm]. rewrite Hem. simpl. by eapply at_index_insert_same.
    - apply removeComponent_Ok in Hcall as (sig0 & cm & _ & _ & _ & _ & Hsig0 & Hem & Hsm).
      eexists. split; [| exact Hsm]. rewrite Hem. simpl. by eapply at_index_insert_same. }
  exists signature. split; [done |].
  destruct (onEntitySignatureChange_lists entity signature _ Hvec)
    as (sm1 & Hsm1 & Hsys & _ & Hlists).
  rewrite Hsm in Hsm1. inversion Hsm1 as [Hsm']. rewrite <- Hsm' in Hsys, Hlists.
  split; [done |]. intros i system before Hsystem Hbefore. split_and!.
  - by apply Hlists.
  - by apply update_members_enrols.
  - intros Hno. unfold update_members. by rewrite decide_False.
Qed.

(** ** Destroying an entity, in general *)

Lemma pool_of_onEntityDestroy {V} (T : string) (entity : Entity) st
    (em em' : EntityManager.t) (cm : ComponentManager.t V) (sm sm' : SystemManager.t) :
  ECS.pool_of T {| ECS.statics := st;
                   ECS.ecs := {| ECS.entityManager := em';
                                 ECS.componentManager := ComponentManager.onEntityDestroy entity cm;
                                 ECS.systemManager := sm' |} |}
  = ComponentPool.remove entity <$>
      ECS.pool_of T {| ECS.statics := st;
                       ECS.ecs := {| ECS.entityManager := em;
                                     ECS.componentManager := cm;
                                     ECS.systemManager := sm |} |}.
Proof.
  unfold ECS.pool_of, ComponentManager.onEntityDestroy. simpl.
  destruct (ComponentManager.type_id st !! T) as [id|]; simpl; [| done].
  rewrite list_lookup_fmap.
  destruct (ComponentManager.componentPoolArray cm !! Z.to_nat id) as [[[T' p]|]|]; simpl; try done.
  by case_decide.
Qed.

(** X11. [destroyEntity] of a live entity in a reachable state returns and
    does exactly this: the statics are untouched, the id is appended to the
    free queue, the signature of the entity is empty and the other
    signatures are unchanged, every membership list is [swapRemove]d at
    position [entity], and every registered pool has [remove(entity)]
    applied. *)
Theorem destroyEntity_effect {V} (s : ECS.state V) (live : list Entity) (entity : Entity) :
  ECS.reachable s live → entity ∈ live →
  ∃ s',
    ECS.destroyEntity entity s = Ok s' ∧
    ECS.statics s' = ECS.statics s ∧
    EntityManager.availableEntities (ECS.entityManager (ECS.ecs s'))
      = EntityManager.availableEntities (ECS.entityManager (ECS.ecs s)) ++ [entity] ∧
    ECS.getSignature entity s' = Ok 0 ∧
    (∀ other, other ≠ entity → ECS.getSignature other s' = ECS.getSignature other s) ∧
    (∀ i, ECS.members i s' = (λ l, ECSUtils.swapRemove l entity) <$> ECS.members i s) ∧
    (∀ T, ECS.pool_of T s' = ComponentPool.remove entity <$> ECS.pool_of T s).
Proof.
  intros Hreach Hlive. pose proof (reachable_consistent s live Hreach) as Hcons.
  assert (Hrange : 0 ≤ entity < MAX_ENTITIES).
  { destruct Hcons as (Hperm & _).
    assert (He : entity ∈ EntityManager.availableEntities (ECS.entityManager (ECS.ecs s)) ++ live)
      by (apply elem_of_app; by right).
    rewrite Hperm in He. apply elem_of_seqZ in He. lia. }
  destruct (destroyEntity_returns s live entity Hcons Hrange) as (s' & Hcall & Hqueue).
  exists s'. split; [done |].
  apply destroyEntity_Ok in Hcall as (signature & Hst & Hsig & Hem & Hcm & Hsm).
  destruct Hcons as (_ & _ & _ & Hvec & _).
  destruct (onEntityDestroy_lists entity _ Hvec) as (sm1 & Hsm1 & _ & Hlists).
  rewrite Hsm in Hsm1. inversion Hsm1 as [Hsm']. rewrite <- Hsm' in Hlists.
  unfold ECS.getSignature, EntityManager.getSignature, ECS.members. rewrite Hem. simpl.
  split_and!; try done.
  - by eapply at_index_insert_same.
  - intros other Hother. apply at_index_insert_other; [lia | done].
  - intros i. by rewrite Hlists, list_lookup_fmap.
  - intros T. destruct s as [st [em cm sm]], s' as [st' [em' cm' sm']]. simpl in *. subst.
    apply pool_of_onEntityDestroy.
Qed.

(** ** Pools behind the component manager *)

Lemma getComponentPool_Some {V} (T : string) st (cm : ComponentManager.t V) slot p st' :
  ComponentManager.getComponentPool T st cm = Ok (Some (slot, p), st') →
  0 ≤ (ComponentManager.getComponentTypeId T st).1 ∧
  slot = Z.to_nat (ComponentManager.getComponentTypeId T st).1 ∧
  ComponentManager.componentPoolArray cm !! slot = Some (Some (T, p)).
Proof.
  unfold ComponentManager.getComponentPool.
  destruct (ComponentManager.getComponentTypeId T st) as [id st1]. intros H.
  apply bind_Ok in H as (ptr & Hptr & H). apply at_index_Ok in Hptr as [Hpos Hptr].
  destruct ptr as [[T' p']|]; [| by inversion H]. case_decide; inversion H; subst. done.
Qed.

Lemma getComponentPool_null {V} (T : string) st (cm : ComponentManager.t V) :
  0 ≤ (ComponentManager.getComponentTypeId T st).1 →
  ComponentManager.componentPoolArray cm !! Z.to_nat (ComponentManager.getComponentTypeId T st).1
    = Some None →
  ComponentManager.getComponentPool T st cm
  = Ok (None, (ComponentManager.getComponentTypeId T st).2).
Proof.
  intros Hpos Hslot. unfold ComponentManager.getComponentPool.
  destruct (ComponentManager.getComponentTypeId T st) as [id st1]. simpl in *.
  by rewrite (proj2 (at_index_Ok _ id _) (conj Hpos Hslot)).
Qed.

Lemma add_updated {V} T entity (component : V) st cm st' cm' :
  ComponentManager.add T entity component st cm = Ok (st', cm') → updated_for T cm cm'.
Proof.
  unfold ComponentManager.add. intros H. apply bind_Ok in H as ([r st1] & Hpool & H).
  destruct r as [[slot p]|]; inversion H; subst; [| by left].
  apply getComponentPool_Some in Hpool as (_ & _ & Hslot). right. by eexists _, _, _.
Qed.

Lemma remove_updated {V} T entity st (cm : ComponentManager.t V) st' cm' :
  ComponentManager.remove T entity st cm = Ok (st', cm') → updated_for T cm cm'.
Proof.
  unfold ComponentManager.remove. intros H. apply bind_Ok in H as ([r st1] & Hpool & H).
  destruct r as [[slot p]|]; inversion H; subst; [| by left].
  apply getComponentPool_Some in Hpool as (_ & _ & Hslot). right. by eexists _, _, _.
Qed.

Lemma get_updated {V} T entity st (cm : ComponentManager.t V) ptr st' cm' :
  ComponentManager.get T entity st cm = Ok (ptr, st', cm') → updated_for T cm cm'.
Proof.
  unfold ComponentManager.get. intros H. apply bind_Ok in H as ([r st1] & Hpool & H).
  destruct r as [[slot p]|]; [| done].
  apply bind_Ok in H as ([ptr' p'] & _ & H). inversion H; subst.
  apply getComponentPool_Some in Hpool as (_ & _ & Hslot). right. by eexists _, _, _.
Qed.

Lemma pool_of_slot_of {V} (T : string) (s : ECS.state V) :
  ECS.pool_of T s = slot_of T (ECS.statics s) (ECS.componentManager (ECS.ecs s)).
Proof. done. Qed.

Lemma slot_of_other_type {V} (T T' : string) st (cm : ComponentManager.t V) :
  T ≠ T' →
  slot_of T (ComponentManager.getComponentTypeId T' st).2 cm = slot_of T st cm.
Proof.
  intros Hne. unfold slot_of, ComponentManager.getComponentTypeId.
  destruct (ComponentManager.type_id st !! T') as [id'|] eqn:HT'; simpl; [done |].
  by rewrite lookup_insert_ne.
Qed.

Lemma slot_of_updated_other {V} (T T' : string) st (cm cm' : ComponentManager.t V) :
  T ≠ T' → updated_for T' cm cm' → slot_of T st cm' = slot_of T st cm.
Proof.
  intros Hne [-> | (slot & p & p' & Hslot & ->)]; [done |].
  unfold slot_of, ComponentManager.store. simpl.
  destruct (ComponentManager.type_id st !! T) as [id|]; simpl; [| done].
  destruct (decide (slot = Z.to_nat id)) as [-> | Hslot'].
  - rewrite list_lookup_insert_eq by (by eapply lookup_lt_Some). rewrite Hslot. simpl.
    by rewrite !decide_False by done.
  - by rewrite list_lookup_insert_ne.
Qed.

Lemma registerComponent_slot {V} (T : string) (s s' : ECS.state V) :
  ECS.registerComponent T s = Ok s' →
  let id := (ComponentManager.getComponentTypeId T (ECS.statics s)).1 in
  ECS.statics s' = (ComponentManager.getComponentTypeId T (ECS.statics s)).2 ∧
  0 ≤ id ∧
  (Z.to_nat id < length (ComponentManager.componentPoolArray (ECS.componentManager (ECS.ecs s))))%nat ∧
  ECS.componentManager (ECS.ecs s') =
    ComponentManager.store (Z.to_nat id) T ComponentPool.new (ECS.componentManager (ECS.ecs s)) ∧
  ECS.entityManager (ECS.ecs s') = ECS.entityManager (ECS.ecs s) ∧
  ECS.systemManager (ECS.ecs s') = ECS.systemManager (ECS.ecs s).
Proof.
  unfold ECS.registerComponent, ComponentManager.registerComponent. intros H.
  apply bind_Ok in H as ([st cm] & Hreg & H). inversion H; subst s'; clear H.
  destruct (ComponentManager.getComponentTypeId T (ECS.statics s)) as [id st1].
  apply bind_Ok in Hreg as (slot & Hslot & Hreg). inversion Hreg; subst st cm; clear Hreg.
  apply at_index_Ok in Hslot as [Hpos Hslot]. simpl. split_and!; try done.
  by eapply lookup_lt_Some.
Qed.

Lemma registerComponent_other_pool {V} (s s' : ECS.state V) (live : list Entity) (T T' : string) :
  ECS.reachable s live → T ≠ T' →
  ECS.registerComponent T' s = Ok s' → ECS.pool_of T s' = ECS.pool_of T s.
Proof.
  intros Hreach Hne Hcall.
  pose proof (reachable_ids_wf s live Hreach) as (Hcount & Hrange & Hinj).
  apply registerComponent_slot in Hcall as (Hst & Hpos & Hlt & Hcm & _).
  rewrite !pool_of_slot_of, Hst, Hcm, slot_of_other_type by done.
  unfold slot_of, ComponentManager.store. simpl.
  destruct (ComponentManager.type_id (ECS.statics s) !! T) as [id|] eqn:HT; simpl; [| done].
  rewrite list_lookup_insert_ne; [done |].
  pose proof (Hrange T id HT) as Hid.
  unfold ComponentManager.getComponentTypeId in *.
  destruct (ComponentManager.type_id (ECS.statics s) !! T') as [id'|] eqn:HT'; simpl in *.
  - intros Heq. apply Hne. apply (Hinj T T' id); [done |].
    pose proof (Hrange T' id' HT'). replace id with id' by lia. done.
  - lia.
Qed.

(** X12. Component types do not interfere: in a reachable state a call of
    [assignComponent], [removeComponent], [getComponent] or
    [registerComponent] for a type [T'] leaves the pool of every other type
    as it was. *)
Theorem component_types_isolated {V} (s : ECS.state V) (live : list Entity)
    (T T' : string) (entity : Entity) :
  ECS.reachable s live → T ≠ T' →
  (∀ component s', ECS.assignComponent T' entity component s = Ok s' →
     ECS.pool_of T s' = ECS.pool_of T s) ∧
  (∀ s', ECS.removeComponent T' entity s = Ok s' → ECS.pool_of T s' = ECS.pool_of T s) ∧
  (∀ ptr s', ECS.getComponent T' entity s = Ok (ptr, s') → ECS.pool_of T s' = ECS.pool_of T s) ∧
  (∀ s', ECS.registerComponent T' s = Ok s' → ECS.pool_of T s' = ECS.pool_of T s).
Proof.
  intros Hreach Hne. split_and!.
  - intros component s' Hcall.
    apply assignComponent_Ok in Hcall as (_ & cm & Hst & _ & Hadd & Hcm & _).
    rewrite !pool_of_slot_of, Hst, Hcm, slot_of_other_type by done.
    apply slot_of_updated_other with T'; [done |]. by eapply add_updated.
  - intros s' Hcall.
    apply removeComponent_Ok in Hcall as (_ & cm & Hst & _ & Hrem & Hcm & _).
    rewrite !pool_of_slot_of, Hst, Hcm, slot_of_other_type by done.
    apply slot_of_updated_other with T'; [done |]. by eapply remove_updated.
  - intros ptr s' Hcall. unfold ECS.getComponent in Hcall.
    apply bind_Ok in Hcall as ([[ptr' st] cm] & Hget & Hcall). inversion Hcall; subst; clear Hcall.
    rewrite !pool_of_slot_of. simpl.
    pose proof (get_Ok _ _ _ _ _ _ _ Hget) as [-> _]. rewrite slot_of_other_type by done.
    apply slot_of_updated_other with T'; [done |]. by eapply get_updated.
  - intros s' Hcall. by eapply registerComponent_other_pool.
Qed.

(** A call on a registered type leaves the type registered. *)
Lemma slot_of_updated_same {V} (T : string) st (cm cm' : ComponentManager.t V) :
  updated_for T cm cm' → is_Some (slot_of T st cm) → is_Some (slot_of T st cm').
Proof.
  intros [-> | (slot & p & p' & Hslot & ->)] Hreg; [done |].
  unfold slot_of, ComponentManager.store in *. simpl.
  destruct (ComponentManager.type_id st !! T) as [id|]; simpl in *; [| done].
  destruct (decide (slot = Z.to_nat id)) as [-> | Hslot'].
  - rewrite list_lookup_insert_eq by (by eapply lookup_lt_Some). simpl.
    rewrite decide_True by done. by eexists.
  - by rewrite list_lookup_insert_ne.
Qed.

Lemma slot_of_keeps_id {V} (T T' : string) st (cm : ComponentManager.t V) :
  is_Some (slot_of T st cm) →
  is_Some (slot_of T (ComponentManager.getComponentTypeId T' st).2 cm).
Proof.
  intros Hreg. unfold slot_of in *.
  destruct (ComponentManager.type_id st !! T) as [id|] eqn:HT; simpl in *;
    [| by destruct Hreg].
  by rewrite (getComponentTypeId_keeps T T' id st HT).
Qed.

(** X13. A registered type stays registered: no call of the facade that
    returns from a reachable state unregisters a type. *)
Theorem registered_persists {V} (s s' : ECS.state V) (live live' : list Entity)
    (T : string) (c : call V) :
  ECS.reachable s live → ECS.registered T s →
  exec c (s, live) = Ok (s', live') → ECS.registered T s'.
Proof.
  intros Hreach Hreg Hexec. unfold ECS.registered in *. rewrite pool_of_slot_of in *.
  destruct c as [T' | system | T' | | entity | T' entity component | T' entity | T' entity];
    simpl in Hexec.
  - apply bind_Ok in Hexec as (s1 & Hcall & Hexec). inversion Hexec; subst s1 live'; clear Hexec.
    destruct (decide (T = T')) as [<- | Hne].
    + apply registerComponent_registered in Hcall. by rewrite <- pool_of_slot_of.
    + rewrite <- !pool_of_slot_of in *.
      by rewrite (registerComponent_other_pool s s' live T T' Hreach Hne Hcall).
  - by inversion Hexec; subst.
  - inversion Hexec; subst s' live'. unfold ECS.getComponentTypeId.
    pose proof (slot_of_keeps_id T T' _ _ Hreg) as Hreg'.
    by destruct (ComponentManager.getComponentTypeId T' (ECS.statics s)).
  - apply bind_Ok in Hexec as ([e s1] & Hcall & Hexec). inversion Hexec; subst; clear Hexec.
    unfold ECS.newEntity in Hcall. apply bind_Ok in Hcall as ([e' em] & _ & Hcall).
    by inversion Hcall; subst.
  - case_decide as Hlive; [| done].
    apply bind_Ok in Hexec as (s1 & Hcall & Hexec). inversion Hexec; subst s1 live'; clear Hexec.
    apply destroyEntity_Ok in Hcall as (_ & Hst & _ & _ & Hcm & _).
    rewrite Hst, Hcm. unfold slot_of, ComponentManager.onEntityDestroy in *. simpl.
    destruct (ComponentManager.type_id (ECS.statics s) !! T) as [id|]; simpl in *; [| done].
    rewrite list_lookup_fmap.
    destruct (ComponentManager.componentPoolArray _ !! Z.to_nat id) as [[[T0 p]|]|];
      simpl in *; try done.
    by case_decide.
  - apply bind_Ok in Hexec as (s1 & Hcall & Hexec). inversion Hexec; subst s1 live'; clear Hexec.
    apply assignComponent_Ok in Hcall as (_ & cm & Hst & _ & Hadd & Hcm & _).
    rewrite Hst, Hcm. apply slot_of_keeps_id.
    destruct (decide (T = T')) as [<- | Hne].
    + exact (slot_of_updated_same _ _ _ _ (add_updated _ _ _ _ _ _ _ Hadd) Hreg).
    + by rewrite (slot_of_updated_other T T' _ _ _ Hne (add_updated _ _ _ _ _ _ _ Hadd)).
  - apply bind_Ok in Hexec as (s1 & Hcall & Hexec). inversion Hexec; subst s1 live'; clear Hexec.
    apply removeComponent_Ok in Hcall as (_ & cm & Hst & _ & Hrem & Hcm & _).
    rewrite Hst, Hcm. apply slot_of_keeps_id.
    destruct (decide (T = T')) as [<- | Hne].
    + exact (slot_of_updated_same _ _ _ _ (remove_updated _ _ _ _ _ _ Hrem) Hreg).
    + by rewrite (slot_of_updated_other T T' _ _ _ Hne (remove_updated _ _ _ _ _ _ Hrem)).
  - apply bind_Ok in Hexec as ([ptr s1] & Hcall & Hexec). inversion Hexec; subst s1 live'; clear Hexec.
    unfold ECS.getComponent in Hcall.
    apply bind_Ok in Hcall as ([[ptr' st] cm] & Hget & Hcall). inversion Hcall; subst; clear Hcall.
    simpl. pose proof (get_Ok _ _ _ _ _ _ _ Hget) as [-> _]. apply slot_of_keeps_id.
    destruct (decide (T = T')) as [<- | Hne].
    + exact (slot_of_updated_same _ _ _ _ (get_updated _ _ _ _ _ _ _ Hget) Hreg).
    + by rewrite (slot_of_updated_other T T' _ _ _ Hne (get_updated _ _ _ _ _ _ _ Hget)).
Qed.

(** ** Types that were not registered, and types registered twice *)

Lemma getComponentTypeId_id_nonneg (T : string) st :
  ids_wf st → 0 ≤ (ComponentManager.getComponentTypeId T st).1.
Proof.
  intros (Hcount & Hrange & _). unfold ComponentManager.getComponentTypeId.
  destruct (ComponentManager.type_id st !! T) as [id|] eqn:HT; simpl; [| done].
  apply Hrange in HT. lia.
Qed.

(** X14. A type whose slot is null (never registered), in a reachable
    state: an [assignComponent] that returns has left every pool alone and
    has set the signature bit of the type all the same, a [removeComponent]
    that returns has left every pool alone, and [getComponent] calls through
    the null pointer. *)
Theorem unregistered_type {V} (s : ECS.state V) (live : list Entity)
    (T : string) (entity : Entity) (component : V) :
  ECS.reachable s live →
  ComponentManager.componentPoolArray (ECS.componentManager (ECS.ecs s))
    !! Z.to_nat (ComponentManager.getComponentTypeId T (ECS.statics s)).1 = Some None →
  (∀ s', ECS.assignComponent T entity component s = Ok s' →
     ECS.componentManager (ECS.ecs s') = ECS.componentManager (ECS.ecs s) ∧
     ∃ signature,
       ECS.getSignature entity s = Ok signature ∧
       ECS.getSignature entity s'
       = Ok (Z.setbit signature (ComponentManager.getComponentTypeId T (ECS.statics s)).1)) ∧
  (∀ s', ECS.removeComponent T entity s = Ok s' →
     ECS.componentManager (ECS.ecs s') = ECS.componentManager (ECS.ecs s)) ∧
  ECS.getComponent T entity s = Undefined.
Proof.
  intros Hreach Hslot.
  pose proof (getComponentTypeId_id_nonneg T _ (reachable_ids_wf s live Hreach)) as Hpos.
  pose proof (getComponentPool_null T _ _ Hpos Hslot) as Hpool.
  split_and!.
  - intros s' Hassign.
    apply assignComponent_Ok in Hassign as (signature & cm & _ & _ & Hadd & Hcm & Hsig & Hem & _).
    unfold ComponentManager.add in Hadd. rewrite Hpool in Hadd. simpl in Hadd.
    injection Hadd as _ <-.
    split; [done |]. exists signature.
    unfold ECS.getSignature, EntityManager.getSignature. rewrite Hem. simpl.
    split; [done |]. by eapply at_index_insert_same.
  - intros s' Hremove.
    apply removeComponent_Ok in Hremove as (signature & cm & _ & _ & Hrem & Hcm & _).
    unfold ComponentManager.remove in Hrem. rewrite Hpool in Hrem. simpl in Hrem.
    by injection Hrem as _ <-.
  - unfold ECS.getComponent, ComponentManager.get. by rewrite Hpool.
Qed.

(** X15. Registering a registered type again returns and replaces its pool
    by an empty one: all components of that type are gone, while the id, the
    signatures and the membership lists stay as they were. *)
Theorem reregister_discards {V} (s : ECS.state V) (live : list Entity)
    (T : string) (p : ComponentPool.t V) :
  ECS.reachable s live → ECS.pool_of T s = Some p →
  ∃ s', ECS.registerComponent T s = Ok s' ∧
        ECS.pool_of T s' = Some ComponentPool.new ∧
        ECS.statics s' = ECS.statics s ∧
        ECS.entityManager (ECS.ecs s') = ECS.entityManager (ECS.ecs s) ∧
        ECS.systemManager (ECS.ecs s') = ECS.systemManager (ECS.ecs s).
Proof.
  intros Hreach Hpool.
  pose proof (reachable_consistent s live Hreach) as (_ & _ & _ & _ & _ & Hids).
  apply pool_of_Some in Hpool as (id & Hid & Hslot).
  pose proof (Hids T id Hid) as Hpos.
  unfold ECS.registerComponent, ComponentManager.registerComponent.
  rewrite (getComponentTypeId_known T id _ Hid).
  rewrite (proj2 (at_index_Ok _ id _) (conj Hpos Hslot)). simpl.
  eexists. split; [reflexivity |]. simpl. split_and!; try done.
  apply pool_of_Some. exists id. simpl. split; [done |].
  apply list_lookup_insert_eq. by eapply lookup_lt_Some.
Qed.

(** ** The free queue is first in, first out *)

Lemma run_cons {V} (c : call V) (calls : list (call V)) sl sl' :
  exec c sl = Ok sl' → run (c :: calls) sl = run calls sl'.
Proof. intros H. unfold run. simpl. by rewrite H. Qed.

(** Creating as many entities as a prefix of the queue is long issues that
    prefix, in order, and leaves the rest of the queue. *)
Lemma run_creates {V} (front rest : list Entity) (s : ECS.state V) (live : list Entity) :
  EntityManager.availableEntities (ECS.entityManager (ECS.ecs s)) = front ++ rest →
  run (replicate (length front) NewEntity) (s, live)
  = Ok ({| ECS.statics := ECS.statics s;
           ECS.ecs :=
             {| ECS.entityManager :=
                  {| EntityManager.availableEntities := rest;
                     EntityManager.signatures :=
                       EntityManager.signatures (ECS.entityManager (ECS.ecs s)) |};
                ECS.componentManager := ECS.componentManager (ECS.ecs s);
                ECS.systemManager := ECS.systemManager (ECS.ecs s) |} |},
        reverse front ++ live).
Proof.
  revert s live. induction front as [|e front IH]; intros s live Hqueue.
  - simpl in *. unfold run. simpl. destruct s as [st [[queue sigs] cm sm]]. simpl in *.
    by subst.
  - simpl. erewrite run_cons; last first.
    { simpl. unfold ECS.newEntity, EntityManager.createNew. rewrite Hqueue. simpl. reflexivity. }
    rewrite IH by done. simpl. by rewrite reverse_cons, <- app_assoc.
Qed.

(** X16. From program start the first [n] calls of [newEntity] return
    0, 1, ..., [n - 1] in this order, for every [n] up to [MAX_ENTITIES],
    and leave the ids from [n] on in the queue. *)
Theorem first_entities_in_order {V} (n : nat) :
  (n ≤ Z.to_nat MAX_ENTITIES)%nat →
  ∃ s : ECS.state V,
    run (replicate n NewEntity) start = Ok (s, reverse (seqZ 0 (Z.of_nat n))) ∧
    EntityManager.availableEntities (ECS.entityManager (ECS.ecs s))
      = seqZ (Z.of_nat n) (MAX_ENTITIES - Z.of_nat n).
Proof.
  intros Hn. assert (0 ≤ MAX_ENTITIES) by (unfold MAX_ENTITIES; lia).
  pose proof (run_creates (V:=V) (seqZ 0 (Z.of_nat n)) (seqZ (Z.of_nat n) (MAX_ENTITIES - Z.of_nat n))
                ECS.init []) as Hrun.
  rewrite length_seqZ, Nat2Z.id, app_nil_r in Hrun.
  eexists. split; [apply Hrun | done].
  cbn -[MAX_ENTITIES seqZ].
  replace MAX_ENTITIES with (Z.of_nat n + (MAX_ENTITIES - Z.of_nat n)) at 1 by lia.
  rewrite seqZ_app by lia. done.
Qed.

(** X17. Ids are recycled first in, first out: after [destroyEntity] of a
    live entity, as many [newEntity] calls as ids were free return those
    ids in queue order, and the call after them returns the destroyed id. *)
Theorem destroyed_id_reissued_last {V} (s : ECS.state V) (live : list Entity) (entity : Entity) :
  ECS.reachable s live → entity ∈ live →
  let queue := EntityManager.availableEntities (ECS.entityManager (ECS.ecs s)) in
  ∃ s1 s2 s3,
    ECS.destroyEntity entity s = Ok s1 ∧
    run (replicate (length queue) NewEntity) (s1, filter (λ e, e ≠ entity) live)
      = Ok (s2, reverse queue ++ filter (λ e, e ≠ entity) live) ∧
    ECS.newEntity s2 = Ok (entity, s3).
Proof.
  intros Hreach Hlive queue.
  pose proof (reachable_consistent s live Hreach) as Hcons.
  assert (Hrange : 0 ≤ entity < MAX_ENTITIES).
  { destruct Hcons as (Hperm & _).
    assert (He : entity ∈ queue ++ live) by (apply elem_of_app; by right).
    unfold queue in He. rewrite Hperm in He. apply elem_of_seqZ in He. lia. }
  destruct (destroyEntity_returns s live entity Hcons Hrange) as (s1 & Hcall & Hqueue).
  exists s1. eexists _, _. split; [done |]. split.
  - by apply run_creates.
  - reflexivity.
Qed.

(** ** The application: system signatures and [initECS] *)


Lemma value_of_lookup {T} (p : ComponentPool.t T) (f : nat → T) (n : nat) (e : Z) :
  ComponentPool.components p = f <$> seq 0 n →
  ComponentPool.entityToIndex p !! e = Some e →
  0 ≤ e < Z.of_nat n →
  value_of p e = Some (f (Z.to_nat e)).
Proof.
  intros Hc He Hrange. unfold value_of. rewrite He. simpl.
  rewrite decide_True by lia. rewrite Hc, list_lookup_fmap, lookup_seq_lt by lia. done.
Qed.

(** X19. [initECS], whatever the random component values: it returns; all
    [MAX_ENTITIES] ids are in use and a further [newEntity] throws; every
    entity has both signature bits; both systems have every entity as
    member, once, in creation order; membership is exact; and each entity
    reads back the [Transform] and the [Physic] made for it. *)
Theorem initECS_world {V} (transform physic : nat → V) :
  ∃ s,
    initECS transform physic ECS.init = Ok s ∧
    EntityManager.availableEntities (ECS.entityManager (ECS.ecs s)) = [] ∧
    ECS.newEntity s = Throw (ECSException "Out of available entities") ∧
    (∀ e, 0 ≤ e < MAX_ENTITIES → ECS.getSignature e s = Ok 3) ∧
    ECS.members 0 s = Some (seqZ 0 MAX_ENTITIES) ∧
    ECS.members 1 s = Some (seqZ 0 MAX_ENTITIES) ∧
    membership_exact s (seqZ 0 MAX_ENTITIES) ∧
    ∃ pT pP,
      ECS.pool_of "Transform" s = Some pT ∧ ECS.pool_of "Physic" s = Some pP ∧
      ∀ e, 0 ≤ e < MAX_ENTITIES →
        value_of pT e = Some (transform (Z.to_nat e)) ∧
        value_of pP e = Some (physic (Z.to_nat e)).
Proof.
  assert (Hcomponents :
    (match initECS transform physic ECS.init with
     | Ok s =>
         match ECS.pool_of "Transform" s, ECS.pool_of "Physic" s with
         | Some pT, Some pP => Some (ComponentPool.components pT, ComponentPool.components pP)
         | _, _ => None
         end
     | _ => None
     end) = Some (transform <$> seq 0 (Z.to_nat MAX_ENTITIES),
                  physic <$> seq 0 (Z.to_nat MAX_ENTITIES)))
    by (vm_compute; reflexivity).
  destruct (initECS transform physic ECS.init) as [s| |] eqn:Hrun; [| done | done].
  exists s. split; [reflexivity |].
  observe Hrun (λ r : outcome (ECS.state V),
    match r with
    | Ok s =>
        (EntityManager.availableEntities (ECS.entityManager (ECS.ecs s)),
         bool_decide (EntityManager.signatures (ECS.entityManager (ECS.ecs s))
                      = replicate (Z.to_nat MAX_ENTITIES) 3),
         bool_decide (SystemManager.entitiesVec (ECS.systemManager (ECS.ecs s))
                      = [seqZ 0 MAX_ENTITIES; seqZ 0 MAX_ENTITIES]),
         getSignature <$> SystemManager.systems (ECS.systemManager (ECS.ecs s)),
         match ECS.pool_of "Transform" s with
         | Some p => forallb (λ e, bool_decide (ComponentPool.entityToIndex p !! e = Some e))
                             (seqZ 0 MAX_ENTITIES)
         | None => false
         end,
         match ECS.pool_of "Physic" s with
         | Some p => forallb (λ e, bool_decide (ComponentPool.entityToIndex p !! e = Some e))
                             (seqZ 0 MAX_ENTITIES)
         | None => false
         end)
    | _ => ([0], false, false, [], false, false)
    end).
  apply pair_equal_spec in Hobs as [Hobs Hobs4].
  apply pair_equal_spec in Hobs as [Hobs Hobs3].
  apply pair_equal_spec in Hobs as [Hobs Hobs2].
  apply pair_equal_spec in Hobs as [Hobs Hobs1].
  apply pair_equal_spec in Hobs as [Hobs Hobs0].
  apply bool_decide_eq_true in Hobs0, Hobs1.
  assert (Hsig : ∀ e, 0 ≤ e < MAX_ENTITIES → ECS.getSignature e s = Ok 3).
  { intros e He. unfold ECS.getSignature, EntityManager.getSignature. rewrite Hobs0.
    apply at_index_Ok. split; [lia |]. apply lookup_replicate_2. lia. }
  split_and!.
  - done.
  - unfold ECS.newEntity, EntityManager.createNew. by rewrite Hobs.
  - done.
  - unfold ECS.members. by rewrite Hobs1.
  - unfold ECS.members. by rewrite Hobs1.
  - intros i system entities Hsystem Hmembers. unfold ECS.members in Hmembers.
    rewrite Hobs1 in Hmembers.
    assert (Hreq : getSignature system = 1 ∨ getSignature system = 3).
    { apply (f_equal (fmap getSignature)) in Hsystem. rewrite <- list_lookup_fmap, Hobs2 in Hsystem.
      destruct i as [|[|i]]; inversion Hsystem; auto. }
    assert (entities = seqZ 0 MAX_ENTITIES) as ->.
    { destruct i as [|[|i]]; by inversion Hmembers. }
    split; [apply NoDup_seqZ |]. intros e. split.
    + intros He. split; [done |]. apply elem_of_seqZ in He.
      exists 3. split; [apply Hsig; lia |]. by destruct Hreq as [-> | ->].
    + by intros [He _].
  - destruct (ECS.pool_of "Transform" s) as [pT|]; [| done].
    destruct (ECS.pool_of "Physic" s) as [pP|]; [| done].
    exists pT, pP. split; [done |]. split; [done |].
    apply (inj Some) in Hcomponents.
    apply pair_equal_spec in Hcomponents as [HcT HcP].
    rewrite forallb_forall in Hobs3, Hobs4.
    intros e He.
    assert (Hin : In e (seqZ 0 MAX_ENTITIES)).
    { apply list_elem_of_In, elem_of_seqZ. lia. }
    split.
    + apply value_of_lookup with (n := Z.to_nat MAX_ENTITIES); [done | | lia].
      apply (bool_decide_eq_true_1 _), Hobs3, Hin.
    + apply value_of_lookup with (n := Z.to_nat MAX_ENTITIES); [done | | lia].
      apply (bool_decide_eq_true_1 _), Hobs4, Hin.
Qed.

(** ** Facts about the sample worlds *)

Lemma world_after_setup_run : run setup start = Ok world_after_setup.
Proof. by vm_compute. Qed.

Lemma world_after_setup_live : world_after_setup.2 = [1; 0].
Proof. by vm_compute. Qed.

Lemma world_after_setup_reachable : ECS.reachable world_after_setup.1 [1; 0].
Proof.
  apply run_start_reachable with setup. rewrite world_after_setup_run, <- world_after_setup_live.
  by destruct world_after_setup.
Qed.

Lemma world_after_assign_call :
  ECS.assignComponent "Transform" 1 7 world_after_setup.1 = Ok world_after_assign.
Proof. by vm_compute. Qed.

Lemma world_after_assign_reachable : ECS.reachable world_after_assign [1; 0].
Proof.
  eapply ECS.reach_assignComponent; [apply world_after_setup_reachable |].
  apply world_after_assign_call.
Qed.

Lemma world_one_entity_reachable : ECS.reachable world_one_entity.1 [0].
Proof.
  apply run_start_reachable with [NewEntity].
  assert (run [NewEntity] start = Ok world_one_entity) as -> by (by vm_compute).
  assert (world_one_entity.2 = [0]) as <- by (by vm_compute).
  by destruct world_one_entity.
Qed.

Lemma index_maps_inverse_new {T} : index_maps_inverse (ComponentPool.new (T:=T)).
Proof.
  split; simpl.
  - intros e i. by rewrite !lookup_empty.
  - intros i. rewrite lookup_empty. split; [by intros [? ?] | lia].
Qed.

Lemma two_entity_pool_inverse : index_maps_inverse two_entity_pool.
Proof.
  apply index_maps_inverse_add; [apply index_maps_inverse_add |].
  - apply index_maps_inverse_new.
  - done.
  - by vm_compute.
Qed.

(** ** The theorems above at the sample worlds *)

Lemma swapRemove_removes_one_witness :
  [10; 20; 30] ≡ₚ 10 :: ECSUtils.swapRemove [10; 20; 30] 0 ∧
  (NoDup [10; 20; 30] →
   NoDup (ECSUtils.swapRemove [10; 20; 30] 0) ∧ 10 ∉ ECSUtils.swapRemove [10; 20; 30] 0).
Proof. apply (swapRemove_removes_one [10; 20; 30] 0 10); [lia | reflexivity]. Defined.

Lemma get_cases_witness :
  ComponentPool.get 1 two_entity_pool = Ok (element_at 1, two_entity_pool) ∧
  ComponentPool.get 7 (ComponentPool.new (T:=Z)) = Undefined.
Proof.
  destruct (get_cases 1 two_entity_pool) as (Hpresent & _).
  destruct (get_cases 7 (ComponentPool.new (T:=Z))) as (_ & _ & _ & Hempty).
  split.
  - apply (Hpresent 1); [reflexivity | simpl; lia].
  - apply Hempty; reflexivity.
Defined.

Lemma remove_add_witness :
  ComponentPool.remove 3 (ComponentPool.add 3 5 two_entity_pool) = two_entity_pool.
Proof. apply remove_add; reflexivity. Defined.

Lemma add_on_consistent_pool_witness :
  index_maps_inverse (ComponentPool.add 2 12 two_entity_pool) ∧
  value_of (ComponentPool.add 2 12 two_entity_pool) 2 = Some 12 ∧
  ∀ other, other ≠ 2 →
    value_of (ComponentPool.add 2 12 two_entity_pool) other = value_of two_entity_pool other.
Proof.
  apply add_on_consistent_pool; [apply two_entity_pool_inverse | reflexivity].
Defined.

Lemma remove_keeps_other_values_witness :
  value_of (ComponentPool.remove 0 two_entity_pool) 0 = None ∧
  ∀ other, other ≠ 0 →
    value_of (ComponentPool.remove 0 two_entity_pool) other = value_of two_entity_pool other.
Proof.
  apply remove_keeps_other_values; [apply two_entity_pool_inverse |].
  exists 0. reflexivity.
Defined.

Lemma remove_last_keeps_index_maps_witness :
  index_maps_inverse (ComponentPool.remove 1 two_entity_pool) ∧
  length (ComponentPool.components (ComponentPool.remove 1 two_entity_pool)) = 1%nat.
Proof.
  apply (remove_last_keeps_index_maps two_entity_pool 1);
    [apply two_entity_pool_inverse | reflexivity].
Defined.

Lemma signatures_in_width_witness :
  Forall (λ signature, 0 ≤ signature < 2 ^ MAX_COMPONENTS)
         (EntityManager.signatures (ECS.entityManager (ECS.ecs world_after_assign))).
Proof. exact (signatures_in_width _ _ world_after_assign_reachable). Defined.

Lemma members_distinct_in_range_witness :
  NoDup [1] ∧ (∀ e, e ∈ [1] → 0 ≤ e < MAX_ENTITIES) ∧ (length [1] ≤ Z.to_nat MAX_ENTITIES)%nat.
Proof.
  apply (members_distinct_in_range world_after_assign [1; 0] 0 [1]);
    [apply world_after_assign_reachable | by vm_compute].
Defined.

Lemma signature_after_assign_remove_witness :
  ∃ id signature,
    ComponentManager.type_id (ECS.statics world_after_assign) !! "Transform" = Some id ∧
    0 ≤ id < MAX_COMPONENTS ∧
    ECS.getSignature 1 world_after_setup.1 = Ok signature ∧
    ECS.getSignature 1 world_after_assign = Ok (Z.setbit signature id) ∧
    (∀ bit, 0 ≤ bit →
       Z.testbit (Z.setbit signature id) bit
       = if decide (bit = id) then true else Z.testbit signature bit) ∧
    (∀ other, other ≠ 1 →
       ECS.getSignature other world_after_assign = ECS.getSignature other world_after_setup.1).
Proof.
  destruct (signature_after_assign_remove "Transform" 1 world_after_setup.1 world_after_assign)
    as [Hassign _].
  apply (Hassign 7). apply world_after_assign_call.
Defined.

Lemma membership_after_signature_change_witness :
  ∃ signature,
    ECS.getSignature 1 world_after_assign = Ok signature ∧
    SystemManager.systems (ECS.systemManager (ECS.ecs world_after_assign))
      = SystemManager.systems (ECS.systemManager (ECS.ecs world_after_setup.1)) ∧
    ∀ i system before,
      SystemManager.systems (ECS.systemManager (ECS.ecs world_after_setup.1)) !! i = Some system →
      ECS.members i world_after_setup.1 = Some before →
      ECS.members i world_after_assign = Some (update_members 1 signature system before) ∧
      (Z.land signature (getSignature system) = getSignature system →
         1 ∈ update_members 1 signature system before ∧
         (update_members 1 signature system before = before ∨
          update_members 1 signature system before = before ++ [1])) ∧
      (Z.land signature (getSignature system) ≠ getSignature system →
         update_members 1 signature system before = ECSUtils.swapRemove before 1).
Proof.
  apply (membership_after_signature_change world_after_setup.1 world_after_assign [1; 0]
           "Transform" 1).
  - apply world_after_setup_reachable.
  - left. exists 7. apply world_after_assign_call.
Defined.

Lemma destroyEntity_effect_witness :
  ∃ s',
    ECS.destroyEntity 1 world_after_assign = Ok s' ∧
    ECS.statics s' = ECS.statics world_after_assign ∧
    EntityManager.availableEntities (ECS.entityManager (ECS.ecs s'))
      = EntityManager.availableEntities (ECS.entityManager (ECS.ecs world_after_assign)) ++ [1] ∧
    ECS.getSignature 1 s' = Ok 0 ∧
    (∀ other, other ≠ 1 → ECS.getSignature other s' = ECS.getSignature other world_after_assign) ∧
    (∀ i, ECS.members i s' = (λ l, ECSUtils.swapRemove l 1) <$> ECS.members i world_after_assign) ∧
    (∀ T, ECS.pool_of T s' = ComponentPool.remove 1 <$> ECS.pool_of T world_after_assign).
Proof.
  apply (destroyEntity_effect world_after_assign [1; 0] 1);
    [apply world_after_assign_reachable | apply list_elem_of_here].
Defined.

Lemma component_types_isolated_witness :
  ECS.pool_of "Physic" world_after_assign = ECS.pool_of "Physic" world_after_setup.1.
Proof.
  destruct (component_types_isolated world_after_setup.1 [1; 0] "Physic" "Transform" 1)
    as (Hassign & _); [apply world_after_setup_reachable | discriminate |].
  apply (Hassign 7). apply world_after_assign_call.
Defined.

Lemma registered_persists_witness : ECS.registered "Physic" world_after_assign.
Proof.
  apply (registered_persists world_after_setup.1 world_after_assign [1; 0] [1; 0] "Physic"
           (AssignComponent "Transform" 1 7)).
  - apply world_after_setup_reachable.
  - eexists. by vm_compute.
  - simpl. by rewrite world_after_assign_call.
Defined.

Lemma unregistered_type_witness :
  ∃ s1 s2 : ECS.state Z,
    ECS.assignComponent "Transform" 0 7 world_one_entity.1 = Ok s1 ∧
    ECS.removeComponent "Transform" 0 world_one_entity.1 = Ok s2 ∧
    (ECS.componentManager (ECS.ecs s1) = ECS.componentManager (ECS.ecs world_one_entity.1) ∧
     ∃ signature,
       ECS.getSignature 0 world_one_entity.1 = Ok signature ∧
       ECS.getSignature 0 s1
       = Ok (Z.setbit signature
               (ComponentManager.getComponentTypeId "Transform"
                  (ECS.statics world_one_entity.1)).1)) ∧
    ECS.componentManager (ECS.ecs s2) = ECS.componentManager (ECS.ecs world_one_entity.1) ∧
    ECS.getComponent "Transform" 0 world_one_entity.1 = Undefined.
Proof.
  assert (Hreturn :
    match ECS.assignComponent "Transform" 0 7 world_one_entity.1,
          ECS.removeComponent "Transform" 0 world_one_entity.1 with
    | Ok _, Ok _ => true
    | _, _ => false
    end = true) by (vm_compute; reflexivity).
  destruct (ECS.assignComponent "Transform" 0 7 world_one_entity.1) as [s1| |] eqn:Hassign;
    [| discriminate | discriminate].
  destruct (ECS.removeComponent "Transform" 0 world_one_entity.1) as [s2| |] eqn:Hremove;
    [| discriminate | discriminate].
  destruct (unregistered_type world_one_entity.1 [0] "Transform" 0 7)
    as (Hassigned & Hremoved & Hget).
  - apply world_one_entity_reachable.
  - vm_compute. reflexivity.
  - exists s1, s2. split; [reflexivity |]. split; [reflexivity |].
    split; [exact (Hassigned s1 Hassign) |].
    split; [exact (Hremoved s2 Hremove) | exact Hget].
Defined.

Lemma reregister_discards_witness :
  ∃ s', ECS.registerComponent "Transform" world_after_assign = Ok s' ∧
        ECS.pool_of "Transform" s' = Some ComponentPool.new ∧
        ECS.statics s' = ECS.statics world_after_assign ∧
        ECS.entityManager (ECS.ecs s') = ECS.entityManager (ECS.ecs world_after_assign) ∧
        ECS.systemManager (ECS.ecs s') = ECS.systemManager (ECS.ecs world_after_assign).
Proof.
  apply (reregister_discards world_after_assign [1; 0] "Transform"
           (ComponentPool.add 1 7 ComponentPool.new)).
  - apply world_after_assign_reachable.
  - by vm_compute.
Defined.

Lemma first_entities_in_order_witness :
  ∃ s : ECS.state Z,
    run (replicate 3 NewEntity) start = Ok (s, reverse (seqZ 0 (Z.of_nat 3))) ∧
    EntityManager.availableEntities (ECS.entityManager (ECS.ecs s))
      = seqZ (Z.of_nat 3) (MAX_ENTITIES - Z.of_nat 3).
Proof. apply (first_entities_in_order 3). unfold MAX_ENTITIES. lia. Defined.

Lemma destroyed_id_reissued_last_witness :
  let queue :=
    EntityManager.availableEntities (ECS.entityManager (ECS.ecs world_after_assign)) in
  ∃ s1 s2 s3,
    ECS.destroyEntity 1 world_after_assign = Ok s1 ∧
    run (replicate (length queue) NewEntity) (s1, filter (λ e, e ≠ 1) [1; 0])
      = Ok (s2, reverse queue ++ filter (λ e, e ≠ 1) [1; 0]) ∧
    ECS.newEntity s2 = Ok (1, s3).
Proof.
  apply (destroyed_id_reissued_last world_after_assign [1; 0] 1);
    [apply world_after_assign_reachable | apply list_elem_of_here].
Defined.

